(** * CBV System - PNG icon generator ([generate-png-icons.py])

    A shallow embedding of the script and the properties of its
    control flow.  The script is a sequence of guarded calls into two
    third-party libraries (cairosvg and Pillow) and the [os] module; those
    calls are the fields of the class [Platform], the script is written
    once over any platform, in a state-and-exception monad that follows
    Python's [try]/[except].

    What is modelled of Python: a library call returns or raises an instance
    of [Exception] and may change the world either way; [print] appends a
    line to the standard output and does not raise; [sys.exit] raises
    [SystemExit]; an exception nobody catches ends the interpreter with
    status 1. Signals such as [KeyboardInterrupt] are outside the model. *)

From stdpp Require Import base option list strings pretty gmap.
From Stdlib Require Import ZArith Lia.

Local Open Scope Z_scope.
Local Open Scope string_scope.

(** ** Exceptions *)

(** The classes of exception the script tells apart.  [ImportError] is what
    an [import] statement raises when a package is missing; every other
    subclass of [Exception] is [OtherError].  [SystemExit], raised by
    [sys.exit], derives from [BaseException] only, so that
    [except Exception] lets it through. *)
Inductive exc_class := ImportError | OtherError.

Record error := Error { err_class : exc_class; err_text : string }.

Inductive raised :=
| Exc (e : error)
| SystemExit (code : Z).

#[global] Instance exc_class_eq_dec : EqDecision exc_class.
Proof. solve_decision. Defined.
#[global] Instance error_eq_dec : EqDecision error.
Proof. solve_decision. Defined.

(** ** The calls that leave the script *)

Inductive call :=
| Import (name : string)
| OsSystem (command : string)
| PathExists (path : string)
| Svg2png (url write_to : string) (output_width output_height : Z)
| ImageOpen (path : string)
| ImageSave (path format : string) (sizes : list (Z * Z))
| OsRemove (path : string).

Inductive outcome := Returned | Raised (e : error).

#[global] Instance call_eq_dec : EqDecision call.
Proof. solve_decision. Defined.
#[global] Instance outcome_eq_dec : EqDecision outcome.
Proof. solve_decision. Defined.

(** One entry of the run's journal: a call and how it ended. *)
Definition event : Type := call * outcome.

(** The libraries and the operating system, over a world [W]. A call takes
    the world and gives the world back with its result or the error it
    raised. *)
Class Platform (W : Type) := {
  image : Type;
  sys_executable : string;
  import_module : string → W → (error + unit) * W;
  os_system : string → W → Z * W;
  os_path_exists : string → W → bool;
  cairosvg_svg2png : string → string → Z → Z → W → (error + unit) * W;
  Image_open : string → W → (error + image) * W;
  Image_save : image → string → string → list (Z * Z) → W → (error + unit) * W;
  os_remove : string → W → (error + unit) * W;
}.

(** What a file holds, as far as the script's outputs go. *)
Inductive content :=
| SvgDoc
| Png (width height : Z)
| Ico (frames : list (Z * Z))
| Junk.

#[global] Instance content_eq_dec : EqDecision content.
Proof. solve_decision. Defined.

(** The frames Pillow's ICO writer keeps: those no larger than the picture
    and no larger than 256 pixels. *)
Definition ico_frames (dims : Z * Z) (sizes : list (Z * Z)) : list (Z * Z) :=
  filter (λ fr : Z * Z, (fr.1 ≤ dims.1 ∧ fr.2 ≤ dims.2 ∧ fr.1 ≤ 256 ∧ fr.2 ≤ 256)%Z) sizes.

(** The documented contract of the calls that touch files, for a platform
    whose world has a file system to look into: [svg2png] leaves a PNG of the
    requested size at [write_to], [Image.open] reads a raster and hands over
    its size, [save] with [format='ICO'] writes the frames that fit,
    [os.remove] unlinks; and no call touches a path other than its own. *)
Class Files (W : Type) `{Platform W} := {
  file_at : W → string → option content;
  image_size : image → Z * Z;
  svg2png_writes url out w h d d' :
    cairosvg_svg2png url out w h d = (inr tt, d') → file_at d' out = Some (Png w h);
  svg2png_elsewhere url out w h d r d' p :
    cairosvg_svg2png url out w h d = (r, d') → p ≠ out → file_at d' p = file_at d p;
  open_reads p d img d' :
    Image_open p d = (inr img, d') →
    file_at d p = Some (Png (image_size img).1 (image_size img).2);
  open_keeps p d r d' q :
    Image_open p d = (r, d') → file_at d' q = file_at d q;
  save_ico_writes img p sizes d d' :
    Image_save img p "ICO" sizes d = (inr tt, d') →
    file_at d' p = Some (Ico (ico_frames (image_size img) sizes));
  save_elsewhere img p fmt sizes d r d' q :
    Image_save img p fmt sizes d = (r, d') → q ≠ p → file_at d' q = file_at d q;
  remove_unlinks p d d' :
    os_remove p d = (inr tt, d') → file_at d' p = None;
  remove_elsewhere p d r d' q :
    os_remove p d = (r, d') → q ≠ p → file_at d' q = file_at d q;
}.

(** ** The interpreter state and the monad *)

(** [stdout] holds the printed lines, oldest first; [journal] the calls made,
    oldest first; [success_count] is the local variable of
    [generate_png_icons]. *)
Record state (W : Type) := State {
  world : W;
  stdout : list string;
  journal : list event;
  success_count : Z;
}.
Arguments State {W} _ _ _ _.
Arguments world {W} _.
Arguments stdout {W} _.
Arguments journal {W} _.
Arguments success_count {W} _.

(** A computation returns a value or raises, and leaves a state either
    way: what a [try] body did before it raised stays done. *)
Definition M (W A : Type) : Type := state W → (raised + A) * state W.

#[global] Instance M_ret {W} : MRet (M W) := λ A a s, (inr a, s).

#[global] Instance M_bind {W} : MBind (M W) := λ A B k m s,
  match m s with
  | (inr a, s') => k a s'
  | (inl r, s') => (inl r, s')
  end.

Definition raise {W A} (r : raised) : M W A := λ s, (inl r, s).

Section Script.
Context {W : Type} `{Platform W}.
Local Abbreviation M := (M W).

(** [try: body except Exception as e: handler e]. *)
Definition try_except_Exception {A} (body : M A) (handler : error → M A) : M A :=
  λ s, match body s with
       | (inl (Exc e), s') => handler e s'
       | r => r
       end.

(** [try: body except ImportError: handler]. *)
Definition try_except_ImportError {A} (body : M A) (handler : M A) : M A :=
  λ s, match body s with
       | (inl (Exc (Error ImportError _)), s') => handler s'
       | r => r
       end.

(** [for x in l: body x]. *)
Fixpoint for_each {A} (l : list A) (body : A → M unit) : M unit :=
  match l with
  | [] => mret tt
  | x :: l' => body x;; for_each l' body
  end.

Definition print (line : string) : M unit :=
  λ s, (inr tt, State (world s) (stdout s ++ [line]) (journal s) (success_count s)).

Definition sys_exit {A} (code : Z) : M A := raise (SystemExit code).

Definition set_success_count (n : Z) : M unit :=
  λ s, (inr tt, State (world s) (stdout s) (journal s) n).

Definition get_success_count : M Z := λ s, (inr (success_count s), s).

(** A library call that may raise: the call is entered in the journal with
    its outcome. *)
Definition external {A} (c : call) (f : W → (error + A) * W) : M A :=
  λ s, match f (world s) with
       | (inr a, w) =>
           (inr a, State w (stdout s) (journal s ++ [(c, Returned)]) (success_count s))
       | (inl e, w) =>
           (inl (Exc e), State w (stdout s) (journal s ++ [(c, Raised e)]) (success_count s))
       end.

Definition do_import (name : string) : M unit :=
  external (Import name) (import_module name).

Definition do_os_system (command : string) : M Z :=
  λ s, let '(status, w) := os_system command (world s) in
       (inr status,
        State w (stdout s) (journal s ++ [(OsSystem command, Returned)]) (success_count s)).

Definition do_path_exists (path : string) : M bool :=
  λ s, (inr (os_path_exists path (world s)),
        State (world s) (stdout s) (journal s ++ [(PathExists path, Returned)])
              (success_count s)).

Definition svg2png (url write_to : string) (output_width output_height : Z) : M unit :=
  external (Svg2png url write_to output_width output_height)
           (cairosvg_svg2png url write_to output_width output_height).

Definition do_Image_open (path : string) : M image :=
  external (ImageOpen path) (Image_open path).

Definition do_Image_save (img : image) (path format : string) (sizes : list (Z * Z)) : M unit :=
  external (ImageSave path format sizes) (Image_save img path format sizes).

Definition do_os_remove (path : string) : M unit :=
  external (OsRemove path) (os_remove path).

(** ** The script *)

(** [s * n] on strings. *)
Fixpoint str_mul (s : string) (n : nat) : string :=
  match n with
  | O => ""
  | S n' => s ++ str_mul s n'
  end.

(** [str(n)] for an [int]. *)
Definition str_int (n : Z) : string := pretty n.

Definition svg_path : string := "app/public/icons/icon.svg".
Definition icons_dir : string := "app/public/icons".
Definition sizes : list Z := [72; 96; 128; 144; 152; 192; 384; 512].

Definition favicon_path : string := "app/public/favicon.ico".
Definition favicon_temp : string := "app/public/favicon-temp.png".
Definition apple_icon_path : string := "app/public/apple-touch-icon.png".

(** [f"{icons_dir}/icon-{size}x{size}.png"] *)
Definition icon_path (size : Z) : string :=
  icons_dir ++ "/icon-" ++ str_int size ++ "x" ++ str_int size ++ ".png".

(** [from PIL import Image] followed by [import cairosvg]. *)
Definition import_statements : M unit :=
  do_import "PIL.Image";;
  do_import "cairosvg".

Definition pip_install : string := sys_executable ++ " -m pip install pillow cairosvg".

(** The module's import block. *)
Definition module_imports : M unit :=
  try_except_ImportError
    import_statements
    (print "❌ Required packages not installed";;
     print "Installing required packages...";;
     do_os_system pip_install;;
     import_statements).

(** The body of the [for size in sizes] loop. *)
Definition generate_size (size : Z) : M unit :=
  try_except_Exception
    (let output_path := icon_path size in
     svg2png svg_path output_path size size;;
     print ("  ✓ Generated " ++ str_int size ++ "x" ++ str_int size ++ " icon");;
     n ← get_success_count;
     set_success_count (n + 1))
    (λ e,
     print ("  ❌ Failed to generate " ++ str_int size ++ "x" ++ str_int size ++ ": "
            ++ err_text e)).

Definition generate_favicon : M unit :=
  try_except_Exception
    (svg2png svg_path favicon_temp 32 32;;
     img ← do_Image_open favicon_temp;
     do_Image_save img favicon_path "ICO" [(32, 32)];;
     do_os_remove favicon_temp;;
     print "  ✓ Generated favicon.ico";;
     n ← get_success_count;
     set_success_count (n + 1))
    (λ e, print ("  ❌ Failed to generate favicon: " ++ err_text e)).

Definition generate_apple_touch_icon : M unit :=
  try_except_Exception
    (svg2png svg_path apple_icon_path 180 180;;
     print "  ✓ Generated apple-touch-icon.png";;
     n ← get_success_count;
     set_success_count (n + 1))
    (λ e, print ("  ❌ Failed to generate apple-touch-icon: " ++ err_text e)).

Definition banner : M unit :=
  print (str_mul "=" 70);;
  print "CBV SYSTEM - PNG ICON GENERATOR";;
  print (str_mul "=" 70);;
  print "".

Definition summary : M unit :=
  print "";;
  print (str_mul "=" 70);;
  print "✅ ICON GENERATION COMPLETE";;
  print (str_mul "=" 70);;
  print "";;
  n ← get_success_count;
  print ("📊 Generated " ++ str_int n ++ " icons successfully");;
  print "";;
  print "📝 Next steps:";;
  print "   1. Refresh your browser";;
  print "   2. Check browser console for PWA install prompt";;
  print "   3. Click install icon in address bar";;
  print "";;
  print (str_mul "=" 70).

Definition generate_png_icons : M bool :=
  banner;;
  found ← do_path_exists svg_path;
  if negb found then
    print ("❌ SVG file not found: " ++ svg_path);;
    mret false
  else
    print ("📁 Source SVG: " ++ svg_path);;
    print ("📁 Output directory: " ++ icons_dir);;
    print "";;
    set_success_count 0;;
    for_each sizes generate_size;;
    generate_favicon;;
    generate_apple_touch_icon;;
    summary;;
    n ← get_success_count;
    mret (bool_decide (n > 0)).

(** The [if __name__ == "__main__":] block. *)
Definition main_block : M unit :=
  try_except_Exception
    (success ← generate_png_icons;
     sys_exit (if success : bool then 0 else 1))
    (λ e,
     print ("❌ Error: " ++ err_text e);;
     sys_exit 1).

(** The whole module, run as a script. *)
Definition script : M unit :=
  module_imports;;
  main_block.

(** The exit status of the interpreter: the argument of [SystemExit], 1
    after an exception nobody caught, 0 when the module runs to its end. *)
Definition exit_status (r : raised + unit) : Z :=
  match r with
  | inr _ => 0
  | inl (SystemExit code) => code
  | inl (Exc _) => 1
  end.

Definition initial (w : W) : state W := State w [] [] 0.

Definition run (w : W) : (raised + unit) * state W := script (initial w).

End Script.

(** ** A file system to run the script on

    A platform with a concrete world: the files of the working directory, the
    paths that cannot be written or removed, and the installed packages. The
    library calls do what their documentation says: [svg2png] parses the
    document at [url] and writes a PNG of the requested size, [Image.open]
    reads a raster, [save] with [format='ICO'] keeps the requested frames that
    fit the picture, [os.remove] unlinks an existing file. *)

Record disk := Disk {
  files : gmap string content;
  read_only : gset string;
  installed : gset string;
  pip_works : bool;
}.

Definition set_files (d : disk) (f : gmap string content) : disk :=
  Disk f (read_only d) (installed d) (pip_works d).

Definition no_such_file (path : string) : error :=
  Error OtherError ("[Errno 2] No such file or directory: '" ++ path ++ "'").
Definition permission_denied (path : string) : error :=
  Error OtherError ("[Errno 13] Permission denied: '" ++ path ++ "'").
Definition not_an_svg : error :=
  Error OtherError "syntax error: line 1, column 0".
Definition not_an_image (path : string) : error :=
  Error OtherError ("cannot identify image file '" ++ path ++ "'").
Definition unknown_format (format : string) : error :=
  Error OtherError ("unknown file extension: " ++ format).
Definition no_module (name : string) : error :=
  Error ImportError ("No module named '" ++ name ++ "'").

Definition disk_import (name : string) (d : disk) : (error + unit) * disk :=
  if decide (name ∈ installed d) then (inr tt, d) else (inl (no_module name), d).

Definition disk_system (command : string) (d : disk) : Z * disk :=
  if pip_works d
  then (0, Disk (files d) (read_only d) ({[ "PIL.Image"; "cairosvg" ]} ∪ installed d) true)
  else (256, d).

Definition disk_exists (path : string) (d : disk) : bool :=
  bool_decide (is_Some (files d !! path)).

Definition disk_svg2png (url write_to : string) (w h : Z) (d : disk)
  : (error + unit) * disk :=
  match files d !! url with
  | None => (inl (no_such_file url), d)
  | Some SvgDoc =>
      if decide (write_to ∈ read_only d) then (inl (permission_denied write_to), d)
      else (inr tt, set_files d (<[write_to := Png w h]> (files d)))
  | Some _ => (inl not_an_svg, d)
  end.

Definition disk_open (path : string) (d : disk) : (error + Z * Z) * disk :=
  match files d !! path with
  | None => (inl (no_such_file path), d)
  | Some (Png w h) => (inr (w, h), d)
  | Some _ => (inl (not_an_image path), d)
  end.

Definition disk_save (img : Z * Z) (path format : string) (sizes : list (Z * Z))
    (d : disk) : (error + unit) * disk :=
  if decide (path ∈ read_only d) then (inl (permission_denied path), d)
  else if decide (format = "ICO")
       then (inr tt, set_files d (<[path := Ico (ico_frames img sizes)]> (files d)))
       else if decide (format = "PNG")
            then (inr tt, set_files d (<[path := Png img.1 img.2]> (files d)))
            else (inl (unknown_format format), d).

Definition disk_remove (path : string) (d : disk) : (error + unit) * disk :=
  match files d !! path with
  | None => (inl (no_such_file path), d)
  | Some _ =>
      if decide (path ∈ read_only d) then (inl (permission_denied path), d)
      else (inr tt, set_files d (delete path (files d)))
  end.

#[global] Instance disk_platform : Platform disk := {|
  image := Z * Z;
  sys_executable := "/usr/bin/python3";
  import_module := disk_import;
  os_system := disk_system;
  os_path_exists := disk_exists;
  cairosvg_svg2png := disk_svg2png;
  Image_open := disk_open;
  Image_save := disk_save;
  os_remove := disk_remove;
|}.

(** A checkout with the vector icon in place and both packages installed. *)
Definition fresh_disk : disk :=
  Disk {[ svg_path := SvgDoc ]} ∅ {[ "PIL.Image"; "cairosvg" ]} true.

(** A directory without the vector icon. *)
Definition empty_disk : disk :=
  Disk ∅ ∅ {[ "PIL.Image"; "cairosvg" ]} true.

(** A checkout on a machine where the packages are not installed yet. *)
Definition bare_disk : disk :=
  Disk {[ svg_path := SvgDoc ]} ∅ ∅ true.

(** The same checkout with a write-protected [favicon.ico] in the way. *)
Definition locked_favicon_disk : disk :=
  Disk {[ svg_path := SvgDoc; favicon_path := Junk ]} {[ favicon_path ]}
       {[ "PIL.Image"; "cairosvg" ]} true.


(** * The shape of a run *)

(** ** What one run looks like

    Whatever the platform answers, a run of [generate_png_icons] that found
    the source has one shape: one outcome per size, one of five ends for the
    favicon and one outcome for the touch icon. The journal, the printed
    lines and the count are functions of these. *)

Definition size_call (size : Z) : call := Svg2png svg_path (icon_path size) size size.
Definition favicon_raster_call : call := Svg2png svg_path favicon_temp 32 32.
Definition favicon_open_call : call := ImageOpen favicon_temp.
Definition favicon_save_call : call := ImageSave favicon_path "ICO" [(32, 32)].
Definition favicon_remove_call : call := OsRemove favicon_temp.
Definition touch_call : call := Svg2png svg_path apple_icon_path 180 180.

Definition credit (o : outcome) : Z :=
  match o with Returned => 1 | Raised _ => 0 end.

Fixpoint credits (os : list outcome) : Z :=
  match os with
  | [] => 0
  | o :: os' => credit o + credits os'
  end.

Definition size_line (size : Z) (o : outcome) : string :=
  match o with
  | Returned => "  ✓ Generated " ++ str_int size ++ "x" ++ str_int size ++ " icon"
  | Raised e =>
      "  ❌ Failed to generate " ++ str_int size ++ "x" ++ str_int size ++ ": "
      ++ err_text e
  end.

Definition size_event (size : Z) (o : outcome) : event := (size_call size, o).

Inductive favicon_end :=
| RasterFailed (e : error)
| OpenFailed (e : error)
| SaveFailed (e : error)
| RemoveFailed (e : error)
| FaviconDone.

Definition favicon_events (r : favicon_end) : list event :=
  match r with
  | RasterFailed e => [(favicon_raster_call, Raised e)]
  | OpenFailed e => [(favicon_raster_call, Returned); (favicon_open_call, Raised e)]
  | SaveFailed e =>
      [(favicon_raster_call, Returned); (favicon_open_call, Returned);
       (favicon_save_call, Raised e)]
  | RemoveFailed e =>
      [(favicon_raster_call, Returned); (favicon_open_call, Returned);
       (favicon_save_call, Returned); (favicon_remove_call, Raised e)]
  | FaviconDone =>
      [(favicon_raster_call, Returned); (favicon_open_call, Returned);
       (favicon_save_call, Returned); (favicon_remove_call, Returned)]
  end.

Definition favicon_error (r : favicon_end) : option error :=
  match r with
  | RasterFailed e | OpenFailed e | SaveFailed e | RemoveFailed e => Some e
  | FaviconDone => None
  end.

Definition favicon_line (r : favicon_end) : string :=
  match favicon_error r with
  | Some e => "  ❌ Failed to generate favicon: " ++ err_text e
  | None => "  ✓ Generated favicon.ico"
  end.

Definition favicon_credit (r : favicon_end) : Z :=
  match favicon_error r with Some _ => 0 | None => 1 end.

Definition touch_line (o : outcome) : string :=
  match o with
  | Returned => "  ✓ Generated apple-touch-icon.png"
  | Raised e => "  ❌ Failed to generate apple-touch-icon: " ++ err_text e
  end.

Definition banner_lines : list string :=
  [str_mul "=" 70; "CBV SYSTEM - PNG ICON GENERATOR"; str_mul "=" 70; ""].

Definition source_lines : list string :=
  ["📁 Source SVG: " ++ svg_path; "📁 Output directory: " ++ icons_dir; ""].

Definition count_line (n : Z) : string :=
  "📊 Generated " ++ str_int n ++ " icons successfully".

Definition summary_lines (n : Z) : list string :=
  [""; str_mul "=" 70; "✅ ICON GENERATION COMPLETE"; str_mul "=" 70; "";
   count_line n; ""; "📝 Next steps:"; "   1. Refresh your browser";
   "   2. Check browser console for PWA install prompt";
   "   3. Click install icon in address bar"; ""; str_mul "=" 70].

Definition missing_line : string := "❌ SVG file not found: " ++ svg_path.

(** The shape of a run. *)
Record attempt := Attempt {
  size_outcomes : list outcome;
  favicon_outcome : favicon_end;
  touch_outcome : outcome;
}.

Definition attempt_events (a : attempt) : list event :=
  (PathExists svg_path, Returned)
  :: zip_with size_event sizes (size_outcomes a)
  ++ favicon_events (favicon_outcome a)
  ++ [(touch_call, touch_outcome a)].

Definition attempt_count (a : attempt) : Z :=
  credits (size_outcomes a) + favicon_credit (favicon_outcome a)
  + credit (touch_outcome a).

Definition attempt_lines (a : attempt) : list string :=
  banner_lines ++ source_lines
  ++ zip_with size_line sizes (size_outcomes a)
  ++ [favicon_line (favicon_outcome a); touch_line (touch_outcome a)]
  ++ summary_lines (attempt_count a).

(** ** Reading the journal *)

Section Reading.
Local Open Scope list_scope.
Local Open Scope Z_scope.

(** An output has succeeded when the calls that make it returned. *)
Definition size_succeeded (evs : list event) (size : Z) : Prop := (size_call size, Returned) ∈ evs.

Definition favicon_succeeded (evs : list event) : Prop :=
  (favicon_raster_call, Returned) ∈ evs
  ∧ (favicon_save_call, Returned) ∈ evs
  ∧ (favicon_remove_call, Returned) ∈ evs.

Definition touch_succeeded (evs : list event) : Prop := (touch_call, Returned) ∈ evs.

Definition some_output_succeeded (evs : list event) : Prop :=
  (∃ size, size ∈ sizes ∧ size_succeeded evs size)
  ∨ favicon_succeeded evs
  ∨ touch_succeeded evs.

(** The eleven paths the script writes to. *)
Definition output_paths : list string :=
  ((icon_path <$> sizes) ++ [favicon_temp; favicon_path; apple_icon_path])%list.

End Reading.

(** ** The states and worlds of a run *)

Section Worlds.
Context {W : Type} `{Platform W}.
Local Open Scope list_scope.
Local Open Scope Z_scope.
Implicit Types (s : state W).

(** How a state has moved on: the lines and calls added, the count adjusted. *)
Definition advanced s (lines : list string) (evs : list event) (n : Z) s' : Prop :=
  stdout s' = stdout s ++ lines ∧ journal s' = journal s ++ evs
  ∧ success_count s' = success_count s + n.

(** What the library answered, read back from an outcome. *)
Definition answer (o : outcome) : error + unit :=
  match o with Returned => inr tt | Raised e => inl e end.

(** The worlds a run goes through: the loop threads the world through one
    rasterization per size, the favicon through up to four calls. *)
Inductive sizes_worlds : list Z → list outcome → W → W → Prop :=
| sizes_worlds_nil w : sizes_worlds [] [] w w
| sizes_worlds_cons size l o os w w1 w' :
    cairosvg_svg2png svg_path (icon_path size) size size w = (answer o, w1) →
    sizes_worlds l os w1 w' →
    sizes_worlds (size :: l) (o :: os) w w'.

Definition favicon_worlds (r : favicon_end) (w w' : W) : Prop :=
  match r with
  | RasterFailed e => cairosvg_svg2png svg_path favicon_temp 32 32 w = (inl e, w')
  | OpenFailed e =>
      ∃ w1, cairosvg_svg2png svg_path favicon_temp 32 32 w = (inr tt, w1)
            ∧ Image_open favicon_temp w1 = (inl e, w')
  | SaveFailed e =>
      ∃ w1 img w2, cairosvg_svg2png svg_path favicon_temp 32 32 w = (inr tt, w1)
                   ∧ Image_open favicon_temp w1 = (inr img, w2)
                   ∧ Image_save img favicon_path "ICO" [(32, 32)] w2 = (inl e, w')
  | RemoveFailed e =>
      ∃ w1 img w2 w3, cairosvg_svg2png svg_path favicon_temp 32 32 w = (inr tt, w1)
                      ∧ Image_open favicon_temp w1 = (inr img, w2)
                      ∧ Image_save img favicon_path "ICO" [(32, 32)] w2 = (inr tt, w3)
                      ∧ os_remove favicon_temp w3 = (inl e, w')
  | FaviconDone =>
      ∃ w1 img w2 w3, cairosvg_svg2png svg_path favicon_temp 32 32 w = (inr tt, w1)
                      ∧ Image_open favicon_temp w1 = (inr img, w2)
                      ∧ Image_save img favicon_path "ICO" [(32, 32)] w2 = (inr tt, w3)
                      ∧ os_remove favicon_temp w3 = (inr tt, w')
  end.

Definition touch_worlds (o : outcome) (w w' : W) : Prop :=
  cairosvg_svg2png svg_path apple_icon_path 180 180 w = (answer o, w').

Definition attempt_worlds (a : attempt) (w w' : W) : Prop :=
  ∃ w1 w2, sizes_worlds sizes (size_outcomes a) w w1
           ∧ favicon_worlds (favicon_outcome a) w1 w2
           ∧ touch_worlds (touch_outcome a) w2 w'.

(** The shape of every run that found its source. *)
Definition ran (a : attempt) s s' : Prop :=
  length (size_outcomes a) = length sizes
  ∧ stdout s' = stdout s ++ attempt_lines a
  ∧ journal s' = journal s ++ attempt_events a
  ∧ success_count s' = attempt_count a
  ∧ attempt_worlds a (world s) (world s').

End Worlds.

(** ** One run on the file system, as a function of the disk

    On [disk] every answer is decided by the source document and the
    write-protected paths, and every effect is a write or an unlink at an
    output path. *)

(** A write ([Some c]) or an unlink ([None]) at a path. *)
Definition update : Type := string * option content.

Fixpoint apply_updates (ups : list update) (f : gmap string content)
  : gmap string content :=
  match ups with
  | [] => f
  | u :: ups' => apply_updates ups' (partial_alter (λ _, u.2) u.1 f)
  end.

(** What the updates leave at a path, when they touch it. *)
Fixpoint last_update (p : string) (ups : list update) : option (option content) :=
  match ups with
  | [] => None
  | u :: ups' =>
      match last_update p ups' with
      | Some c => Some c
      | None => if decide (u.1 = p) then Some u.2 else None
      end
  end.

Definition raster_outcome (src : option content) (ro : gset string) (out : string)
  : outcome :=
  match src with
  | None => Raised (no_such_file svg_path)
  | Some SvgDoc =>
      if decide (out ∈ ro) then Raised (permission_denied out) else Returned
  | Some _ => Raised not_an_svg
  end.

Definition raster_updates (src : option content) (ro : gset string) (out : string)
    (w h : Z) : list update :=
  match raster_outcome src ro out with
  | Returned => [(out, Some (Png w h))]
  | Raised _ => []
  end.

Definition sizes_updates (src : option content) (ro : gset string) (l : list Z)
  : list update :=
  foldr (λ size ups, (raster_updates src ro (icon_path size) size size ++ ups)%list) [] l.

Definition disk_favicon_end (src : option content) (ro : gset string) : favicon_end :=
  match raster_outcome src ro favicon_temp with
  | Raised e => RasterFailed e
  | Returned =>
      if decide (favicon_path ∈ ro) then SaveFailed (permission_denied favicon_path)
      else FaviconDone
  end.

Definition favicon_updates (src : option content) (ro : gset string) : list update :=
  match raster_outcome src ro favicon_temp with
  | Raised e => []
  | Returned =>
      if decide (favicon_path ∈ ro) then [(favicon_temp, Some (Png 32 32))]
      else [(favicon_temp, Some (Png 32 32)); (favicon_path, Some (Ico [(32, 32)]));
            (favicon_temp, None)]
  end.

Definition disk_attempt (src : option content) (ro : gset string) : attempt :=
  Attempt ((λ size, raster_outcome src ro (icon_path size)) <$> sizes)
          (disk_favicon_end src ro)
          (raster_outcome src ro apple_icon_path).

Definition disk_updates (src : option content) (ro : gset string) : list update :=
  (sizes_updates src ro sizes ++ favicon_updates src ro
   ++ raster_updates src ro apple_icon_path 180 180)%list.

(** ** The import block in the journal *)

(** The calls the import block makes. *)
Definition setup_call (c : call) : Prop :=
  match c with
  | Import _ | OsSystem _ => True
  | _ => False
  end.

(** A machine where the packages are installed but the native cairo library
    is not: [import cairosvg] raises [OSError], which is no [ImportError].
    Nothing else matters there. *)
Inductive no_cairo := NoCairo.

Definition cairo_not_found : error :=
  Error OtherError "no library called cairo-2 was found".

Definition no_cairo_platform : Platform no_cairo := {|
  image := unit;
  sys_executable := "python3";
  import_module name w :=
    if decide (name = "cairosvg") then (inl cairo_not_found, w) else (inr tt, w);
  os_system _ w := (0, w);
  os_path_exists _ _ := true;
  cairosvg_svg2png _ _ _ _ w := (inl cairo_not_found, w);
  Image_open _ w := (inl cairo_not_found, w);
  Image_save _ _ _ _ w := (inl cairo_not_found, w);
  os_remove _ w := (inl cairo_not_found, w);
|}.

(** ** Counting the outputs that succeeded *)

#[global] Instance size_succeeded_dec evs size : Decision (size_succeeded evs size).
Proof. unfold size_succeeded. apply _. Defined.
#[global] Instance favicon_succeeded_dec evs : Decision (favicon_succeeded evs).
Proof. unfold favicon_succeeded. apply _. Defined.
#[global] Instance touch_succeeded_dec evs : Decision (touch_succeeded evs).
Proof. unfold touch_succeeded. apply _. Defined.

(** How many of the ten outputs a journal shows to have succeeded. *)
Definition succeeded_outputs (evs : list event) : Z :=
  (Z.of_nat (length (filter (size_succeeded evs) sizes))
   + (if decide (favicon_succeeded evs) then 1 else 0)
   + (if decide (touch_succeeded evs) then 1 else 0))%Z.

(** * Properties *)

(** ** Facts about journals *)

Ltac split_events Hin :=
  simpl in Hin;
  repeat (apply elem_of_cons in Hin as [Hin|Hin];
          [first [congruence | discriminate Hin] |]);
  by apply elem_of_nil in Hin.

Section Journal.
Local Open Scope list_scope.
Local Open Scope Z_scope.
Implicit Types (l : list Z) (os : list outcome) (evs : list event).

Lemma size_call_inj size1 size2 : size_call size1 = size_call size2 → size1 = size2.
Proof. unfold size_call. congruence. Qed.

Lemma size_call_not_favicon size : size_call size ≠ favicon_raster_call.
Proof.
  unfold size_call, favicon_raster_call. intros Heq.
  assert (size = 32) as -> by congruence. vm_compute in Heq. discriminate.
Qed.

Lemma size_call_not_touch size : size_call size ≠ touch_call.
Proof.
  unfold size_call, touch_call. intros Heq.
  assert (size = 180) as -> by congruence. vm_compute in Heq. discriminate.
Qed.

Lemma elem_of_size_events l os size o :
  (size_call size, o) ∈ zip_with size_event l os
  ↔ ∃ i, l !! i = Some size ∧ os !! i = Some o.
Proof.
  rewrite elem_of_lookup_zip_with. split.
  - intros (i & size' & o' & Heq & Hl & Hos). unfold size_event in Heq.
    assert (size' = size ∧ o' = o) as [-> ->]; [|by eauto].
    split; [apply size_call_inj|]; congruence.
  - intros (i & Hl & Hos). by exists i, size, o.
Qed.

Lemma size_events_are_rasters l os c o :
  (c, o) ∈ zip_with size_event l os → ∃ size, size ∈ l ∧ c = size_call size.
Proof.
  intros (i & size & o' & Heq & Hl & _)%elem_of_lookup_zip_with.
  exists size. split; [by eapply list_elem_of_lookup_2|].
  unfold size_event in Heq. congruence.
Qed.

Lemma elem_of_attempt_events a c o :
  (c, o) ∈ attempt_events a
  ↔ (c, o) = (PathExists svg_path, Returned)
    ∨ (c, o) ∈ zip_with size_event sizes (size_outcomes a)
    ∨ (c, o) ∈ favicon_events (favicon_outcome a)
    ∨ (c, o) = (touch_call, touch_outcome a).
Proof.
  unfold attempt_events.
  rewrite elem_of_cons, !elem_of_app, list_elem_of_singleton. tauto.
Qed.

Lemma size_succeeded_attempt a size :
  size_succeeded (attempt_events a) size
  ↔ ∃ i, sizes !! i = Some size ∧ size_outcomes a !! i = Some Returned.
Proof.
  unfold size_succeeded. rewrite elem_of_attempt_events, elem_of_size_events.
  split; [|by auto].
  intros [Heq|[?|[Hin|Heq]]]; [discriminate|done| |].
  - exfalso. apply (size_call_not_favicon size).
    destruct (favicon_outcome a); split_events Hin.
  - exfalso. apply (size_call_not_touch size). congruence.
Qed.

Lemma favicon_succeeded_attempt a :
  favicon_succeeded (attempt_events a) ↔ favicon_outcome a = FaviconDone.
Proof.
  unfold favicon_succeeded. split.
  - intros (_ & _ & Hin). apply elem_of_attempt_events in Hin
      as [Heq|[Hin|[Hin|Heq]]]; [discriminate| | |discriminate].
    + apply size_events_are_rasters in Hin as (size & _ & Heq). discriminate.
    + destruct (favicon_outcome a); [..|done]; split_events Hin.
  - intros Hdone. rewrite !elem_of_attempt_events, Hdone. simpl.
    split_and!; right; right; left; set_solver.
Qed.

Lemma touch_succeeded_attempt a :
  touch_succeeded (attempt_events a) ↔ touch_outcome a = Returned.
Proof.
  unfold touch_succeeded. rewrite elem_of_attempt_events. split.
  - intros [Heq|[Hin|[Hin|Heq]]]; [discriminate| | |congruence].
    + apply size_events_are_rasters in Hin as (size & _ & Heq).
      symmetry in Heq. by apply size_call_not_touch in Heq.
    + destruct (favicon_outcome a); split_events Hin.
  - intros ->. auto.
Qed.

Lemma credits_nonneg os : 0 ≤ credits os.
Proof. induction os as [|[] os IH]; simpl; lia. Qed.

Lemma credits_pos os : credits os > 0 ↔ ∃ i, os !! i = Some Returned.
Proof.
  induction os as [|o os IH]; simpl.
  - split; [lia|]. by intros [i ?].
  - pose proof (credits_nonneg os). split.
    + destruct o; [by exists 0%nat|]. simpl. intros Hpos.
      destruct IH as [IH _]. destruct IH as [i Hi]; [lia|]. by exists (S i).
    + intros [[|i] Hi]; simpl in Hi.
      * injection Hi as ->. simpl. lia.
      * destruct IH as [_ IH]. specialize (IH (ex_intro _ i Hi)).
        destruct o; simpl; lia.
Qed.

(** The count is positive exactly when some output succeeded. *)
Lemma attempt_count_pos a :
  length (size_outcomes a) = length sizes →
  attempt_count a > 0 ↔ some_output_succeeded (attempt_events a).
Proof.
  intros Hlen. unfold some_output_succeeded.
  rewrite favicon_succeeded_attempt, touch_succeeded_attempt.
  pose proof (credits_nonneg (size_outcomes a)) as Hnn.
  pose proof (credits_pos (size_outcomes a)) as Hpos.
  unfold attempt_count, favicon_credit. split.
  - intros Hcount.
    destruct (favicon_outcome a); simpl in *; auto;
      destruct (touch_outcome a); simpl in *; auto;
      left; destruct Hpos as [[i Hi] _]; [lia| |lia| |lia| |lia|].
    all: destruct (lookup_lt_is_Some_2 sizes i) as [size Hsize];
      [apply lookup_lt_Some in Hi; simpl in *; lia|].
    all: exists size; split; [by eapply list_elem_of_lookup_2|].
    all: apply size_succeeded_attempt; eauto.
  - intros [(size & _ & (i & _ & Hi)%size_succeeded_attempt)|[->| ->]].
    + destruct Hpos as [_ Hpos]. specialize (Hpos (ex_intro _ i Hi)).
      destruct (favicon_error _), (touch_outcome a); simpl; lia.
    + simpl. destruct (touch_outcome a); simpl; lia.
    + destruct (favicon_error _); simpl; lia.
Qed.

End Journal.

Section Control.
Context {W : Type} `{Platform W}.
Local Open Scope list_scope.
Local Open Scope Z_scope.
Implicit Types (s : state W) (size : Z) (l : list Z).

Lemma generate_size_eq size s :
  generate_size size s =
  match cairosvg_svg2png svg_path (icon_path size) size size (world s) with
  | (inr _, w) =>
      (inr tt, State w (stdout s ++ [size_line size Returned])
                     (journal s ++ [size_event size Returned]) (success_count s + 1))
  | (inl e, w) =>
      (inr tt, State w (stdout s ++ [size_line size (Raised e)])
                     (journal s ++ [size_event size (Raised e)]) (success_count s))
  end.
Proof.
  unfold generate_size, try_except_Exception, svg2png, external, mbind, M_bind.
  destruct (cairosvg_svg2png _ _ _ _ _) as [[e|[]] w]; reflexivity.
Qed.

Lemma advanced_refl s : advanced s [] [] 0 s.
Proof. unfold advanced. rewrite !app_nil_r. split_and!; [done..|lia]. Qed.

Lemma advanced_trans s1 s2 s3 ls1 ls2 evs1 evs2 n1 n2 :
  advanced s1 ls1 evs1 n1 s2 → advanced s2 ls2 evs2 n2 s3 →
  advanced s1 (ls1 ++ ls2) (evs1 ++ evs2) (n1 + n2) s3.
Proof.
  intros (Ha & Hb & Hc) (Hd & He & Hf). unfold advanced.
  rewrite Hd, He, Hf, Ha, Hb, Hc, !app_assoc. split_and!; [done..|lia].
Qed.

Ltac solve_advanced :=
  unfold advanced, favicon_credit, favicon_line; simpl;
  rewrite <- ?app_assoc; split_and!; [done | done | lia].

Lemma generate_size_spec size s :
  ∃ o s', generate_size size s = (inr tt, s')
          ∧ advanced s [size_line size o] [size_event size o] (credit o) s'
          ∧ cairosvg_svg2png svg_path (icon_path size) size size (world s)
            = (answer o, world s').
Proof.
  rewrite generate_size_eq.
  destruct (cairosvg_svg2png _ _ _ _ _) as [[e|[]] w].
  - exists (Raised e). eexists. split_and!; [reflexivity| |done]. solve_advanced.
  - exists Returned. eexists. split_and!; [reflexivity| |done]. solve_advanced.
Qed.

Lemma for_each_sizes_spec l s :
  ∃ os s', length os = length l
           ∧ for_each l generate_size s = (inr tt, s')
           ∧ advanced s (zip_with size_line l os) (zip_with size_event l os)
                      (credits os) s'
           ∧ sizes_worlds l os (world s) (world s').
Proof.
  revert s. induction l as [|size l IH]; intros s.
  - exists [], s. split_and!; [done..| |constructor]. apply advanced_refl.
  - destruct (generate_size_spec size s) as (o & s1 & Hrun & Hadv & Hw).
    destruct (IH s1) as (os & s' & Hlen & Hloop & Hadv' & Hw').
    exists (o :: os), s'. split_and!.
    + simpl. by rewrite Hlen.
    + simpl. unfold mbind, M_bind. by rewrite Hrun.
    + apply (advanced_trans _ _ _ _ _ _ _ _ _ Hadv Hadv').
    + by econstructor.
Qed.

Lemma generate_favicon_spec s :
  ∃ r s', generate_favicon s = (inr tt, s')
          ∧ advanced s [favicon_line r] (favicon_events r) (favicon_credit r) s'
          ∧ favicon_worlds r (world s) (world s').
Proof.
  unfold generate_favicon, try_except_Exception, svg2png, do_Image_open,
    do_Image_save, do_os_remove, external, mbind, M_bind.
  destruct (cairosvg_svg2png _ _ _ _ _) as [[e|[]] w1] eqn:E1; cbn [world].
  { exists (RasterFailed e). eexists. split_and!; [reflexivity| |done]. solve_advanced. }
  destruct (Image_open _ _) as [[e|img] w2] eqn:E2; cbn [world].
  { exists (OpenFailed e). eexists. split_and!; [reflexivity| |]; [solve_advanced|].
    simpl. eauto. }
  destruct (Image_save _ _ _ _ _) as [[e|[]] w3] eqn:E3; cbn [world].
  { exists (SaveFailed e). eexists. split_and!; [reflexivity| |]; [solve_advanced|].
    simpl. eauto 6. }
  destruct (os_remove _ _) as [[e|[]] w4] eqn:E4; cbn [world].
  { exists (RemoveFailed e). eexists. split_and!; [reflexivity| |]; [solve_advanced|].
    simpl. eauto 8. }
  exists FaviconDone. eexists. split_and!; [reflexivity| |]; [solve_advanced|].
  simpl. eauto 8.
Qed.

Lemma generate_apple_touch_icon_spec s :
  ∃ o s', generate_apple_touch_icon s = (inr tt, s')
          ∧ advanced s [touch_line o] [(touch_call, o)] (credit o) s'
          ∧ touch_worlds o (world s) (world s').
Proof.
  unfold generate_apple_touch_icon, try_except_Exception, svg2png, external,
    mbind, M_bind, touch_worlds.
  destruct (cairosvg_svg2png _ _ _ _ _) as [[e|[]] w1]; cbn [world].
  - exists (Raised e). eexists. split_and!; [reflexivity| |done]. solve_advanced.
  - exists Returned. eexists. split_and!; [reflexivity| |done]. solve_advanced.
Qed.

Lemma bind_returns {A B} (m : M W A) (k : A → M W B) s a s' :
  m s = (inr a, s') → (m ≫= k) s = k a s'.
Proof. intros Hm. unfold mbind, M_bind. by rewrite Hm. Qed.

Lemma bind_print {B} line (k : unit → M W B) s :
  (print line ≫= k) s
  = k tt (State (world s) (stdout s ++ [line]) (journal s) (success_count s)).
Proof. reflexivity. Qed.

Lemma bind_get_success_count {B} (k : Z → M W B) s :
  (get_success_count ≫= k) s = k (success_count s) s.
Proof. reflexivity. Qed.

Lemma bind_assoc {A B C} (m : M W A) (k : A → M W B) (k' : B → M W C) s :
  ((m ≫= k) ≫= k') s = (m ≫= λ a, k a ≫= k') s.
Proof. unfold mbind, M_bind. by destruct (m s) as [[r|a] s']. Qed.

Ltac step_prints :=
  repeat (rewrite ?bind_assoc, bind_print; cbn beta iota;
          cbn [world stdout journal success_count]).

Lemma banner_eq {B} (k : unit → M W B) s :
  (banner ≫= k) s
  = k tt (State (world s) (stdout s ++ banner_lines) (journal s) (success_count s)).
Proof.
  destruct s as [w out j n]. unfold banner. step_prints.
  unfold print, mbind, M_bind. cbn [world stdout journal success_count].
  unfold banner_lines. by rewrite <- !app_assoc.
Qed.

Lemma generate_png_icons_missing s :
  os_path_exists svg_path (world s) = false →
  generate_png_icons s =
  (inr false, State (world s) (stdout s ++ banner_lines ++ [missing_line])
                    (journal s ++ [(PathExists svg_path, Returned)])
                    (success_count s)).
Proof.
  intros Hmissing. destruct s as [w out j n]. cbn [world] in Hmissing.
  unfold generate_png_icons. rewrite banner_eq.
  cbn [world stdout journal success_count].
  unfold do_path_exists, mbind at 1, M_bind.
  cbn [world stdout journal success_count]. rewrite Hmissing. cbn [negb].
  rewrite bind_print. cbn [world stdout journal success_count].
  unfold missing_line. by rewrite <- !app_assoc.
Qed.

Lemma summary_eq s :
  summary s =
  (inr tt, State (world s) (stdout s ++ summary_lines (success_count s)) (journal s)
                 (success_count s)).
Proof.
  destruct s as [w out j n]. unfold summary. step_prints.
  rewrite bind_get_success_count. cbn [world stdout journal success_count]. step_prints.
  unfold print. cbn [world stdout journal success_count].
  unfold summary_lines, count_line. by rewrite <- !app_assoc.
Qed.

Lemma generate_png_icons_spec s :
  os_path_exists svg_path (world s) = true →
  ∃ a s', generate_png_icons s = (inr (bool_decide (attempt_count a > 0)), s')
          ∧ ran a s s'.
Proof.
  intros Hfound.
  set (s0 := State (world s) (stdout s ++ banner_lines ++ source_lines)
                   (journal s ++ [(PathExists svg_path, Returned)]) 0).
  destruct (for_each_sizes_spec sizes s0)
    as (os & s1 & Hlen & Hloop & (Ha1 & Hb1 & Hc1) & Hw1).
  destruct (generate_favicon_spec s1) as (fr & s2 & Hfav & (Ha2 & Hb2 & Hc2) & Hw2).
  destruct (generate_apple_touch_icon_spec s2)
    as (o & s3 & Htouch & (Ha3 & Hb3 & Hc3) & Hw3).
  exists (Attempt os fr o).
  exists (State (world s3) (stdout s3 ++ summary_lines (success_count s3)) (journal s3)
                (success_count s3)).
  assert (Hcount : success_count s3 = attempt_count (Attempt os fr o)).
  { unfold attempt_count; cbn [size_outcomes favicon_outcome touch_outcome].
    rewrite Hc3, Hc2, Hc1. subst s0. cbn [success_count]. lia. }
  unfold ran. split_and!.
  - unfold generate_png_icons. rewrite banner_eq.
    unfold do_path_exists, mbind at 1, M_bind.
    cbn [world stdout journal success_count]. rewrite Hfound. cbn [negb].
    step_prints. unfold set_success_count, mbind at 1, M_bind.
    cbn [world stdout journal success_count].
    replace (State (world s) _ _ 0) with s0.
    2:{ subst s0. unfold banner_lines, source_lines. by rewrite <- !app_assoc. }
    rewrite (bind_returns _ _ _ _ _ Hloop), (bind_returns _ _ _ _ _ Hfav),
      (bind_returns _ _ _ _ _ Htouch), (bind_returns _ _ _ _ _ (summary_eq s3)).
    unfold get_success_count, mbind, M_bind. cbn [success_count]. by rewrite Hcount.
  - done.
  - cbn [stdout]. rewrite Ha3, Ha2, Ha1, Hcount. subst s0. cbn [stdout].
    unfold attempt_lines; cbn [size_outcomes favicon_outcome touch_outcome].
    by rewrite <- !app_assoc.
  - cbn [journal]. rewrite Hb3, Hb2, Hb1. subst s0. cbn [journal].
    unfold attempt_events; cbn [size_outcomes favicon_outcome touch_outcome].
    by rewrite <- !app_assoc.
  - done.
  - exists (world s1), (world s2). by subst s0.
Qed.

(** The [__main__] block turns the result into the exit status. *)
Lemma main_block_found s :
  os_path_exists svg_path (world s) = true →
  ∃ a s', main_block s
          = (inl (SystemExit (if bool_decide (attempt_count a > 0) then 0 else 1)), s')
          ∧ ran a s s'.
Proof.
  intros Hfound. destruct (generate_png_icons_spec s Hfound) as (a & s' & Hrun & Hran).
  exists a, s'. split; [|done].
  unfold main_block, try_except_Exception.
  rewrite (bind_returns _ _ _ _ _ Hrun). reflexivity.
Qed.

Lemma main_block_missing s :
  os_path_exists svg_path (world s) = false →
  main_block s =
  (inl (SystemExit 1), State (world s) (stdout s ++ banner_lines ++ [missing_line])
                             (journal s ++ [(PathExists svg_path, Returned)])
                             (success_count s)).
Proof.
  intros Hmissing. unfold main_block, try_except_Exception.
  rewrite (bind_returns _ _ _ _ _ (generate_png_icons_missing s Hmissing)). reflexivity.
Qed.

(** ** The script's guarantees, on every platform *)

(** C4: when the source path does not exist, the [__main__] block prints the
    diagnostic that names the missing path, makes no library call besides the
    existence check (so no conversion is attempted), leaves the world as it
    was (so no file is produced) and ends the process with exit status 1. *)
Theorem missing_source_aborts s :
  os_path_exists svg_path (world s) = false →
  exit_status (main_block s).1 = 1
  ∧ stdout (main_block s).2
    = stdout s ++ banner_lines ++ ["❌ SVG file not found: app/public/icons/icon.svg"]
  ∧ journal (main_block s).2 = journal s ++ [(PathExists svg_path, Returned)]
  ∧ world (main_block s).2 = world s.
Proof.
  intros Hmissing. rewrite (main_block_missing s Hmissing). simpl. done.
Qed.

(** C2: each size is converted on its own. The loop body never raises,
    whatever the library does, and neither do the favicon block and the
    touch icon block; and in a run that found the source, all eight
    rasterizations, then the favicon's and the touch icon's, are attempted in
    order whatever their outcomes, and each size that raised has its failure
    line, ending in the error's text, on the output. *)
Theorem size_failures_are_isolated s :
  os_path_exists svg_path (world s) = true →
  (∀ size s0, ∃ s1, generate_size size s0 = (inr tt, s1))
  ∧ (∀ s0, ∃ s1, generate_favicon s0 = (inr tt, s1))
  ∧ (∀ s0, ∃ s1, generate_apple_touch_icon s0 = (inr tt, s1))
  ∧ ∃ found s' os fo rest to,
      generate_png_icons s = (inr found, s')
      ∧ length os = length sizes
      ∧ journal s'
        = journal s ++ [(PathExists svg_path, Returned)]
          ++ zip_with (λ size o, (Svg2png svg_path (icon_path size) size size, o)) sizes os
          ++ (Svg2png svg_path favicon_temp 32 32, fo) :: rest
          ++ [(Svg2png svg_path apple_icon_path 180 180, to)]
      ∧ Forall (λ ev : event,
                  ev.1 ∈ [favicon_open_call; favicon_save_call; favicon_remove_call]) rest
      ∧ ∀ i size e,
          sizes !! i = Some size → os !! i = Some (Raised e) →
          ("  ❌ Failed to generate " +:+ str_int size +:+ "x" +:+ str_int size +:+ ": "
           +:+ err_text e) ∈ stdout s'.
Proof.
  intros Hfound. split_and!.
  { intros size s0. destruct (generate_size_spec size s0) as (o & s1 & Hrun & _). eauto. }
  { intros s0. destruct (generate_favicon_spec s0) as (r & s1 & Hrun & _). eauto. }
  { intros s0. destruct (generate_apple_touch_icon_spec s0) as (o & s1 & Hrun & _). eauto. }
  destruct (generate_png_icons_spec s Hfound)
    as ([os fr to] & s' & Hrun & Hlen & Hout & Hjournal & _ & _).
  cbn [size_outcomes] in Hlen.
  assert (∃ fo rest, favicon_events fr = (favicon_raster_call, fo) :: rest
            ∧ Forall (λ ev : event,
                ev.1 ∈ [favicon_open_call; favicon_save_call; favicon_remove_call]) rest)
    as (fo & rest & Hfav & Hrest).
  { destruct fr; simpl; eexists _, _; (split; [reflexivity|]);
      repeat constructor; set_solver. }
  exists (bool_decide (attempt_count (Attempt os fr to) > 0)), s', os, fo, rest, to.
  split_and!; [done|done| |done|].
  - rewrite Hjournal. unfold attempt_events. cbn [size_outcomes favicon_outcome touch_outcome].
    rewrite Hfav. reflexivity.
  - intros i size e Hsize Ho. rewrite Hout. unfold attempt_lines.
    cbn [size_outcomes favicon_outcome touch_outcome].
    rewrite !elem_of_app. right. right. right. left.
    change (size_line size (Raised e) ∈ zip_with size_line sizes os).
    apply list_elem_of_lookup. exists i. by rewrite lookup_zip_with, Hsize, Ho.
Qed.

(** C3: in a run that found the source the exit status is 0 or 1, and it is
    0 exactly when one of the ten outputs succeeded; when none did, the
    status is not 0, the count is 0 and the summary reports 0 icons. *)
Theorem exit_status_policy s :
  os_path_exists svg_path (world s) = true →
  ∃ evs, journal (main_block s).2 = journal s ++ evs
         ∧ (exit_status (main_block s).1 = 0 ∨ exit_status (main_block s).1 = 1)
         ∧ (exit_status (main_block s).1 = 0 ↔ some_output_succeeded evs)
         ∧ (¬ some_output_succeeded evs →
            exit_status (main_block s).1 ≠ 0
            ∧ success_count (main_block s).2 = 0
            ∧ "📊 Generated 0 icons successfully" ∈ stdout (main_block s).2).
Proof.
  intros Hfound.
  destruct (main_block_found s Hfound) as (a & s' & -> & Hlen & Hout & Hjournal & Hcount & _).
  exists (attempt_events a). cbn [fst snd exit_status].
  pose proof (attempt_count_pos a Hlen) as Hpos.
  split_and!; [done| | |].
  - case_bool_decide; auto.
  - case_bool_decide; [tauto|]. split; [discriminate|]. intros ?. tauto.
  - intros Hnone. assert (attempt_count a = 0) as Hzero.
    { assert (¬ attempt_count a > 0) by tauto.
      pose proof (credits_nonneg (size_outcomes a)). unfold attempt_count in *.
      unfold favicon_credit in *.
      destruct (favicon_error _), (touch_outcome a); simpl in *; lia. }
    split_and!.
    + case_bool_decide; [tauto|discriminate].
    + congruence.
    + rewrite Hout. unfold attempt_lines, summary_lines. rewrite Hzero.
      rewrite !elem_of_app. do 5 right. apply list_elem_of_lookup. by exists 5%nat.
Qed.


(** C9: the favicon block never raises; it adds one to the count exactly when
    the rasterization, the ICO save and the removal of the temporary raster
    all returned, and leaves the count alone otherwise. When the save
    returned and the removal raised, the count is not incremented and the
    one line printed is the favicon failure with the removal's error. *)
Theorem favicon_counted_iff_all_steps s :
  ∃ s' evs lines,
    generate_favicon s = (inr tt, s')
    ∧ journal s' = journal s ++ evs
    ∧ stdout s' = stdout s ++ lines
    ∧ (success_count s' = success_count s + 1 ∨ success_count s' = success_count s)
    ∧ (success_count s' = success_count s + 1 ↔ favicon_succeeded evs)
    ∧ ∀ e, (favicon_save_call, Returned) ∈ evs →
           (favicon_remove_call, Raised e) ∈ evs →
           success_count s' = success_count s
           ∧ lines = ["  ❌ Failed to generate favicon: " +:+ err_text e].
Proof.
  destruct (generate_favicon_spec s) as (fr & s' & Hrun & (Hout & Hjournal & Hcount) & _).
  exists s', (favicon_events fr), [favicon_line fr].
  split_and!; [done..| | |].
  - rewrite Hcount. unfold favicon_credit. destruct (favicon_error fr); auto with lia.
  - rewrite Hcount. unfold favicon_succeeded, favicon_credit.
    destruct fr; simpl; split; try (intros; lia).
    1-4: intros (_ & Hsave & Hremove);
         first [split_events Hsave | split_events Hremove].
    intros _. split_and!; set_solver.
  - intros e Hsave Hremove. rewrite Hcount.
    destruct fr as [e'|e'|e'|e'|]; try split_events Hsave; try split_events Hremove.
    assert (e' = e) as ->.
    { simpl in Hremove.
      repeat (apply elem_of_cons in Hremove as [Hremove|Hremove];
              [first [congruence | discriminate Hremove]|]).
      by apply elem_of_nil in Hremove. }
    unfold favicon_credit, favicon_line. simpl. split; [lia|done].
Qed.

(** C10: when the import statements raise [ImportError], the module does not
    stop there. It prints its two lines, runs the installer through
    [os.system] and executes the import statements again. Up to the installer
    the journal holds imports only, so nothing of the generation has run. The
    retry is outside the [try] of the [__main__] block: when it raises, the
    script ends with that exception uncaught (status 1, the journal stops at
    the failed import), and when it returns the [__main__] block runs next. *)
Theorem failed_import_installs_and_retries s text :
  (import_statements s).1 = inl (Exc (Error ImportError text)) →
  ∃ imports status w,
    journal (import_statements s).2 = journal s ++ imports
    ∧ Forall (λ ev : event, ∃ name, ev.1 = Import name) imports
    ∧ os_system (sys_executable +:+ " -m pip install pillow cairosvg")
                (world (import_statements s).2) = (status, w)
    ∧ let retry :=
        import_statements
          (State w
             (stdout s ++ ["❌ Required packages not installed";
                           "Installing required packages..."])
             (journal s ++ imports
              ++ [(OsSystem (sys_executable +:+ " -m pip install pillow cairosvg"),
                   Returned)])
             (success_count s)) in
      module_imports s = retry
      ∧ script s = match retry with
                   | (inr _, s') => main_block s'
                   | (inl r, s') => (inl r, s')
                   end
      ∧ ∀ e, retry.1 = inl (Exc e) →
             script s = (inl (Exc e), retry.2) ∧ exit_status (script s).1 = 1.
Proof.
  intros Hfail.
  assert (∃ imports, journal (import_statements s).2 = journal s ++ imports
            ∧ Forall (λ ev : event, ∃ name, ev.1 = Import name) imports
            ∧ stdout (import_statements s).2 = stdout s
            ∧ success_count (import_statements s).2 = success_count s)
    as (imports & Hjournal & Himports & Hout & Hcount).
  { unfold import_statements, do_import, external, mbind, M_bind.
    destruct (import_module "PIL.Image" (world s)) as [[e1|[]] w1]; cbn [world journal snd].
    - exists [(Import "PIL.Image", Raised e1)]. split_and!; [done| |done..].
      repeat constructor. by eexists.
    - destruct (import_module "cairosvg" w1) as [[e2|[]] w2]; cbn [journal snd].
      + exists [(Import "PIL.Image", Returned); (Import "cairosvg", Raised e2)].
        rewrite <- app_assoc. split_and!; [done| |done..].
        repeat constructor; by eexists.
      + exists [(Import "PIL.Image", Returned); (Import "cairosvg", Returned)].
        rewrite <- app_assoc. split_and!; [done| |done..].
        repeat constructor; by eexists. }
  destruct (os_system pip_install (world (import_statements s).2)) as [status w] eqn:Hsys.
  exists imports, status, w. split_and!; [done..|].
  assert (module_imports s =
          import_statements
            (State w (stdout s ++ ["❌ Required packages not installed";
                                   "Installing required packages..."])
               (journal s ++ imports ++ [(OsSystem pip_install, Returned)])
               (success_count s))) as Hmodule.
  { unfold module_imports, try_except_ImportError.
    destruct (import_statements s) as [r s1]. simpl in Hfail, Hsys, Hjournal, Hout, Hcount.
    subst r. unfold print, do_os_system, mbind at 1 2 3, M_bind.
    cbn [world stdout journal success_count]. rewrite Hsys, Hjournal, Hout, Hcount.
    by rewrite <- !app_assoc. }
  cbn zeta. fold pip_install. rewrite <- Hmodule.
  assert (script s = match module_imports s with
                     | (inr _, s') => main_block s'
                     | (inl r, s') => (inl r, s')
                     end) as Hscript by reflexivity.
  split_and!; [done|done|].
  intros e He. rewrite Hscript. destruct (module_imports s) as [r s']. simpl in He.
  by subst r.
Qed.

End Control.

(** ** What is on the file system afterwards *)

Lemma output_paths_distinct : NoDup output_paths.
Proof. apply (bool_decide_unpack _). by vm_compute. Qed.

Lemma source_is_no_output : svg_path ∉ output_paths.
Proof. apply (bool_decide_unpack _). by vm_compute. Qed.

Section Outputs.
Context {W : Type} `{Files W}.
Local Open Scope list_scope.
Local Open Scope Z_scope.
Implicit Types (s : state W) (w : W) (l : list Z) (os : list outcome).

(** After the loop a size that returned has its file, of that size, and
    paths that belong to no size are as before. *)
Lemma sizes_worlds_files l os w w' :
  sizes_worlds l os w w' →
  NoDup (icon_path <$> l) →
  (∀ i size, l !! i = Some size → os !! i = Some Returned →
             file_at w' (icon_path size) = Some (Png size size))
  ∧ (∀ p, p ∉ icon_path <$> l → file_at w' p = file_at w p).
Proof.
  induction 1 as [w|size l o os w w1 w' Hcall _ IH]; intros Hnodup.
  { split; [|done]. intros i size Hl. by rewrite lookup_nil in Hl. }
  rewrite fmap_cons in Hnodup. apply NoDup_cons in Hnodup as [Hfresh Hnodup].
  destruct (IH Hnodup) as [IHdone IHframe]. split.
  - intros [|i] size' Hl Hos; simpl in Hl, Hos.
    + injection Hl as ->. injection Hos as ->. rewrite (IHframe _ Hfresh).
      by eapply svg2png_writes.
    + by eapply IHdone.
  - intros p Hp. rewrite fmap_cons in Hp. apply not_elem_of_cons in Hp as [Hne Hp].
    rewrite (IHframe p Hp). by eapply svg2png_elsewhere.
Qed.

(** After the favicon block: a save that returned has left a one-frame
    32x32 icon at the favicon path, a block that ran to its end has
    unlinked the temporary raster, and only those two paths can differ. *)
Lemma favicon_worlds_files r w w' :
  favicon_worlds r w w' →
  ((favicon_save_call, Returned) ∈ favicon_events r →
   file_at w' favicon_path = Some (Ico [(32, 32)]))
  ∧ (r = FaviconDone → file_at w' favicon_temp = None)
  ∧ (∀ p, p ≠ favicon_temp → p ≠ favicon_path → file_at w' p = file_at w p).
Proof.
  assert (Hne : favicon_path ≠ favicon_temp) by discriminate.
  assert (Hsaved : ∀ w1 img w2 w3,
            cairosvg_svg2png svg_path favicon_temp 32 32 w = (inr tt, w1) →
            Image_open favicon_temp w1 = (inr img, w2) →
            Image_save img favicon_path "ICO" [(32, 32)] w2 = (inr tt, w3) →
            file_at w3 favicon_path = Some (Ico [(32, 32)])).
  { intros w1 img w2 w3 H1 H2 H3.
    rewrite (save_ico_writes _ _ _ _ _ H3).
    pose proof (open_reads _ _ _ _ H2) as Hread.
    rewrite (svg2png_writes _ _ _ _ _ _ H1) in Hread.
    destruct (image_size img) as [a b]. simpl in Hread.
    injection Hread as <- <-. reflexivity. }
  destruct r as [e|e|e|e|]; simpl.
  - intros H1. split_and!; [intros Hin; split_events Hin|done|].
    intros p Hp _. by eapply svg2png_elsewhere.
  - intros (w1 & H1 & H2). split_and!; [intros Hin; split_events Hin|done|].
    intros p Hp _. rewrite (open_keeps _ _ _ _ p H2). by eapply svg2png_elsewhere.
  - intros (w1 & img & w2 & H1 & H2 & H3).
    split_and!; [intros Hin; split_events Hin|done|].
    intros p Hp Hp'. rewrite (save_elsewhere _ _ _ _ _ _ _ p H3 Hp'),
      (open_keeps _ _ _ _ p H2). by eapply svg2png_elsewhere.
  - intros (w1 & img & w2 & w3 & H1 & H2 & H3 & H4). split_and!; [|done|].
    + intros _. rewrite (remove_elsewhere _ _ _ _ _ H4 Hne). eauto.
    + intros p Hp Hp'. rewrite (remove_elsewhere _ _ _ _ p H4 Hp),
        (save_elsewhere _ _ _ _ _ _ _ p H3 Hp'), (open_keeps _ _ _ _ p H2).
      by eapply svg2png_elsewhere.
  - intros (w1 & img & w2 & w3 & H1 & H2 & H3 & H4). split_and!.
    + intros _. rewrite (remove_elsewhere _ _ _ _ _ H4 Hne). eauto.
    + intros _. by eapply remove_unlinks.
    + intros p Hp Hp'. rewrite (remove_elsewhere _ _ _ _ p H4 Hp),
        (save_elsewhere _ _ _ _ _ _ _ p H3 Hp'), (open_keeps _ _ _ _ p H2).
      by eapply svg2png_elsewhere.
Qed.

Lemma favicon_saved_attempt a :
  (favicon_save_call, Returned) ∈ attempt_events a
  ↔ (favicon_save_call, Returned) ∈ favicon_events (favicon_outcome a).
Proof.
  rewrite elem_of_attempt_events. split; [|by auto].
  intros [Heq|[Hin|[Hin|Heq]]]; [discriminate| |done|discriminate].
  apply size_events_are_rasters in Hin as (size & _ & Heq). discriminate.
Qed.

(** What a whole run leaves behind, in terms of its outcomes. *)
Lemma attempt_worlds_files a w w' :
  attempt_worlds a w w' →
  (∀ i size, sizes !! i = Some size → size_outcomes a !! i = Some Returned →
             file_at w' (icon_path size) = Some (Png size size))
  ∧ ((favicon_save_call, Returned) ∈ favicon_events (favicon_outcome a) →
     file_at w' favicon_path = Some (Ico [(32, 32)]))
  ∧ (touch_outcome a = Returned → file_at w' apple_icon_path = Some (Png 180 180)).
Proof.
  intros (w1 & w2 & Hsizes & Hfav & Htouch). split_and!.
  - intros i size Hi Ho.
    pose proof output_paths_distinct as Hnodup. unfold output_paths in Hnodup.
    apply NoDup_app in Hnodup as (Hnodup & Hother & _).
    destruct (sizes_worlds_files _ _ _ _ Hsizes Hnodup) as [Hdone _].
    destruct (favicon_worlds_files _ _ _ Hfav) as (_ & _ & Hframe).
    assert (Hin : icon_path size ∈ icon_path <$> sizes).
    { apply list_elem_of_fmap_2. by eapply list_elem_of_lookup_2. }
    specialize (Hother _ Hin).
    rewrite (svg2png_elsewhere _ _ _ _ _ _ _ (icon_path size) Htouch),
      Hframe by set_solver.
    by eapply Hdone.
  - intros Hsaved.
    destruct (favicon_worlds_files _ _ _ Hfav) as (Hico & _ & _).
    rewrite (svg2png_elsewhere _ _ _ _ _ _ _ favicon_path Htouch) by discriminate.
    auto.
  - intros Hdone. unfold touch_worlds in Htouch.
    rewrite Hdone in Htouch. by eapply svg2png_writes.
Qed.

(** C6: in a run that found the source, on a platform that keeps the
    libraries' contract, every output that was written has the requested
    square size at the end of the run: the file of each size that was
    rasterized holds a [size] by [size] PNG, the favicon, once saved, holds
    one 32x32 frame, and the touch icon a 180x180 PNG. *)
Theorem outputs_have_requested_dimensions s :
  os_path_exists svg_path (world s) = true →
  ∃ found s' evs,
    generate_png_icons s = (inr found, s')
    ∧ journal s' = journal s ++ evs
    ∧ (∀ size, size ∈ sizes → size_succeeded evs size →
               file_at (world s') (icon_path size) = Some (Png size size))
    ∧ ((favicon_save_call, Returned) ∈ evs →
       file_at (world s') favicon_path = Some (Ico [(32, 32)]))
    ∧ (touch_succeeded evs →
       file_at (world s') apple_icon_path = Some (Png 180 180)).
Proof.
  intros Hfound.
  destruct (generate_png_icons_spec s Hfound)
    as (a & s' & Hrun & Hlen & _ & Hjournal & _ & Hworlds).
  destruct (attempt_worlds_files _ _ _ Hworlds) as (Hsizes & Hfav & Htouch).
  exists (bool_decide (attempt_count a > 0)), s', (attempt_events a).
  split_and!; [done..| | |].
  - intros size _ (i & Hi & Ho)%size_succeeded_attempt. by eapply Hsizes.
  - intros Hsaved%favicon_saved_attempt. auto.
  - intros Hdone%touch_succeeded_attempt. auto.
Qed.


End Outputs.

(** The file system keeps the contract. *)
Lemma disk_svg2png_writes url out w h d d' :
  disk_svg2png url out w h d = (inr tt, d') → files d' !! out = Some (Png w h).
Proof.
  unfold disk_svg2png. intros Hcall.
  destruct (files d !! url) as [[]|]; try discriminate.
  case_decide; [discriminate|]. injection Hcall as <-. simpl. apply lookup_insert_eq.
Qed.

Lemma disk_svg2png_elsewhere url out w h d r d' p :
  disk_svg2png url out w h d = (r, d') → p ≠ out → files d' !! p = files d !! p.
Proof.
  unfold disk_svg2png. intros Hcall Hne.
  destruct (files d !! url) as [[]|]; try by injection Hcall as _ <-.
  case_decide; injection Hcall as _ <-; [done|]. simpl. by apply lookup_insert_ne.
Qed.

Lemma disk_open_reads p d (img : Z * Z) d' :
  disk_open p d = (inr img, d') → files d !! p = Some (Png img.1 img.2).
Proof.
  unfold disk_open. destruct (files d !! p) as [[]|]; try discriminate.
  by intros [= <- _].
Qed.

Lemma disk_open_keeps p d r d' q :
  disk_open p d = (r, d') → files d' !! q = files d !! q.
Proof.
  unfold disk_open. destruct (files d !! p) as [[]|]; by intros [= _ <-].
Qed.

Lemma disk_save_ico_writes (img : Z * Z) p sizes d d' :
  disk_save img p "ICO" sizes d = (inr tt, d') →
  files d' !! p = Some (Ico (ico_frames img sizes)).
Proof.
  unfold disk_save. case_decide; [discriminate|].
  rewrite decide_True by done. intros [= <-]. simpl. apply lookup_insert_eq.
Qed.

Lemma disk_save_elsewhere (img : Z * Z) p fmt sizes d r d' q :
  disk_save img p fmt sizes d = (r, d') → q ≠ p → files d' !! q = files d !! q.
Proof.
  unfold disk_save. intros Hcall Hne.
  repeat case_decide; injection Hcall as _ <-; try done; simpl; by apply lookup_insert_ne.
Qed.

Lemma disk_remove_unlinks p d d' :
  disk_remove p d = (inr tt, d') → files d' !! p = None.
Proof.
  unfold disk_remove. destruct (files d !! p); [|discriminate].
  case_decide; [discriminate|]. intros [= <-]. simpl. apply lookup_delete_eq.
Qed.

Lemma disk_remove_elsewhere p d r d' q :
  disk_remove p d = (r, d') → q ≠ p → files d' !! q = files d !! q.
Proof.
  unfold disk_remove. intros Hcall Hne. destruct (files d !! p).
  - case_decide; injection Hcall as _ <-; [done|]. simpl. by apply lookup_delete_ne.
  - by injection Hcall as _ <-.
Qed.

#[global] Instance disk_files : Files disk := {|
  file_at d p := files d !! p;
  image_size img := img;
  svg2png_writes := disk_svg2png_writes;
  svg2png_elsewhere := disk_svg2png_elsewhere;
  open_reads := disk_open_reads;
  open_keeps := disk_open_keeps;
  save_ico_writes := disk_save_ico_writes;
  save_elsewhere := disk_save_elsewhere;
  remove_unlinks := disk_remove_unlinks;
  remove_elsewhere := disk_remove_elsewhere;
|}.

(** ** One run on the file system, as a function of the disk *)

Section Determined.
Local Open Scope list_scope.
Local Open Scope Z_scope.
Implicit Types (d : disk) (f : gmap string content) (ups : list update).

Lemma lookup_apply_updates ups f p :
  apply_updates ups f !! p = default (f !! p) (last_update p ups).
Proof.
  revert f. induction ups as [|[q c] ups IH]; intros f; simpl; [done|].
  rewrite IH. destruct (last_update p ups); simpl; [done|].
  rewrite lookup_partial_alter. by case_decide.
Qed.

Lemma apply_updates_app ups1 ups2 f :
  apply_updates (ups1 ++ ups2) f = apply_updates ups2 (apply_updates ups1 f).
Proof. revert f. induction ups1 as [|u ups1 IH]; intros f; simpl; [done|apply IH]. Qed.

(** Applying the same updates again changes nothing. *)
Lemma apply_updates_again ups f :
  apply_updates ups (apply_updates ups f) = apply_updates ups f.
Proof.
  apply map_eq. intros p. rewrite !lookup_apply_updates.
  by destruct (last_update p ups).
Qed.

Lemma last_update_app p ups1 ups2 :
  last_update p (ups1 ++ ups2)
  = match last_update p ups2 with Some c => Some c | None => last_update p ups1 end.
Proof.
  induction ups1 as [|u ups1 IH]; simpl; [by destruct (last_update p ups2)|].
  rewrite IH. by destruct (last_update p ups2).
Qed.

Lemma set_files_files d : set_files d (files d) = d.
Proof. by destruct d. Qed.

Lemma set_files_twice d f f' : set_files (set_files d f) f' = set_files d f'.
Proof. reflexivity. Qed.

Lemma raster_outcome_returned src ro out :
  raster_outcome src ro out = Returned → src = Some SvgDoc ∧ out ∉ ro.
Proof.
  unfold raster_outcome. destruct src as [[]|]; try discriminate.
  by case_decide.
Qed.

Lemma disk_svg2png_run out w h d :
  disk_svg2png svg_path out w h d
  = (answer (raster_outcome (files d !! svg_path) (read_only d) out),
     set_files d (apply_updates
                    (raster_updates (files d !! svg_path) (read_only d) out w h)
                    (files d))).
Proof.
  unfold disk_svg2png, raster_updates, raster_outcome.
  destruct (files d !! svg_path) as [[]|]; simpl; rewrite ?set_files_files; try done.
  case_decide; simpl; by rewrite ?set_files_files.
Qed.

Lemma answer_inj o1 o2 : answer o1 = answer o2 → o1 = o2.
Proof. destruct o1, o2; simpl; congruence. Qed.

(** The updates of a rasterization touch its target only. *)
Lemma last_update_raster src ro out w h p :
  p ≠ out → last_update p (raster_updates src ro out w h) = None.
Proof.
  intros Hne. unfold raster_updates. destruct (raster_outcome src ro out); simpl; [|done].
  by rewrite decide_False.
Qed.

Lemma last_update_sizes src ro l p :
  p ∉ icon_path <$> l → last_update p (sizes_updates src ro l) = None.
Proof.
  induction l as [|size l IH]; simpl; [done|].
  rewrite not_elem_of_cons. intros [Hne Hp].
  rewrite last_update_app, (IH Hp). by apply last_update_raster.
Qed.

Lemma last_update_favicon src ro p :
  p ≠ favicon_temp → p ≠ favicon_path → last_update p (favicon_updates src ro) = None.
Proof.
  intros Hne1 Hne2. unfold favicon_updates.
  destruct (raster_outcome src ro favicon_temp); [|done].
  case_decide; simpl; by rewrite ?decide_False.
Qed.

Lemma source_survives src ro :
  last_update svg_path (disk_updates src ro) = None.
Proof.
  pose proof source_is_no_output as Hsrc. unfold output_paths in Hsrc.
  apply not_elem_of_app in Hsrc as [Hsizes Hrest].
  unfold disk_updates. rewrite !last_update_app.
  rewrite last_update_raster, last_update_favicon, last_update_sizes;
    [done|done|set_solver..].
Qed.

Lemma disk_raster_returned out w h d d1 :
  disk_svg2png svg_path out w h d = (inr tt, d1) →
  raster_outcome (files d !! svg_path) (read_only d) out = Returned
  ∧ d1 = set_files d (<[out := Png w h]> (files d)).
Proof.
  rewrite disk_svg2png_run. unfold raster_updates.
  destruct (raster_outcome _ _ _); simpl; [|discriminate]. by intros [= <-].
Qed.

Lemma disk_raster_raised out w h d e d1 :
  disk_svg2png svg_path out w h d = (inl e, d1) →
  raster_outcome (files d !! svg_path) (read_only d) out = Raised e ∧ d1 = d.
Proof.
  rewrite disk_svg2png_run. unfold raster_updates.
  destruct (raster_outcome _ _ _); simpl; [discriminate|].
  rewrite set_files_files. by intros [= <- <-].
Qed.

(** The loop on the file system. *)
Lemma disk_sizes_worlds l os d d' :
  sizes_worlds l os d d' →
  svg_path ∉ icon_path <$> l →
  os = (λ size, raster_outcome (files d !! svg_path) (read_only d) (icon_path size))
       <$> l
  ∧ d' = set_files d (apply_updates (sizes_updates (files d !! svg_path) (read_only d) l)
                                    (files d)).
Proof.
  induction 1 as [d|size l o os d d1 d' Hcall _ IH]; intros Hsrc.
  { simpl. by rewrite set_files_files. }
  rewrite fmap_cons in Hsrc. apply not_elem_of_cons in Hsrc as [Hne Hsrc].
  change (disk_svg2png svg_path (icon_path size) size size d = (answer o, d1)) in Hcall.
  rewrite disk_svg2png_run in Hcall. injection Hcall as Ho%answer_inj Hd1.
  destruct (IH Hsrc) as [-> ->]. subst d1. cbn [files read_only set_files].
  rewrite lookup_apply_updates, last_update_raster by done. cbn [default].
  split; [by rewrite fmap_cons, Ho|].
  cbn [sizes_updates foldr]. by rewrite apply_updates_app.
Qed.

(** The favicon block on the file system. *)
Lemma disk_favicon_worlds r d d' :
  favicon_worlds r d d' →
  r = disk_favicon_end (files d !! svg_path) (read_only d)
  ∧ d' = set_files d (apply_updates (favicon_updates (files d !! svg_path) (read_only d))
                                    (files d)).
Proof.
  unfold disk_favicon_end, favicon_updates.
  assert (Hopen : ∀ d1, d1 = set_files d (<[favicon_temp := Png 32 32]> (files d)) →
                        disk_open favicon_temp d1 = (inr (32, 32), d1)).
  { intros d1 ->. unfold disk_open. cbn [files set_files]. by rewrite lookup_insert_eq. }
  destruct r as [e|e|e|e|]; cbn [favicon_worlds];
    change (@cairosvg_svg2png disk _) with disk_svg2png;
    change (@Image_open disk _) with disk_open;
    change (@Image_save disk _) with disk_save;
    change (@os_remove disk _) with disk_remove.
  - intros [-> ->]%disk_raster_raised. by rewrite set_files_files.
  - intros (d1 & [Ho Hd1]%disk_raster_returned & H2).
    rewrite (Hopen _ Hd1) in H2. discriminate.
  - intros (d1 & img & d2 & [Ho Hd1]%disk_raster_returned & H2 & H3).
    rewrite (Hopen _ Hd1) in H2. injection H2 as <- <-. rewrite Ho.
    unfold disk_save in H3. subst d1. cbn [read_only set_files] in H3.
    case_decide; [|rewrite decide_True in H3 by done; discriminate].
    by injection H3 as <- <-.
  - intros (d1 & img & d2 & d3 & [Ho Hd1]%disk_raster_returned & H2 & H3 & H4).
    exfalso. rewrite (Hopen _ Hd1) in H2. injection H2 as <- <-.
    apply raster_outcome_returned in Ho as [_ Hrw].
    unfold disk_save in H3. subst d1. cbn [read_only set_files files] in H3.
    case_decide; [discriminate|]. rewrite decide_True in H3 by done.
    injection H3 as <-. unfold disk_remove in H4. cbn [read_only set_files files] in H4.
    rewrite lookup_insert_ne, lookup_insert_eq, decide_False in H4 by done.
    discriminate.
  - intros (d1 & img & d2 & d3 & [Ho Hd1]%disk_raster_returned & H2 & H3 & H4).
    rewrite (Hopen _ Hd1) in H2. injection H2 as <- <-. rewrite Ho.
    apply raster_outcome_returned in Ho as [_ Hrw].
    unfold disk_save in H3. subst d1. cbn [read_only set_files files] in H3.
    case_decide; [discriminate|]. rewrite decide_True in H3 by done.
    injection H3 as <-. unfold disk_remove in H4. cbn [read_only set_files files] in H4.
    rewrite lookup_insert_ne, lookup_insert_eq, decide_False in H4 by done.
    by injection H4 as <-.
Qed.

(** The whole run on the file system. *)
Lemma disk_attempt_worlds a d d' :
  attempt_worlds a d d' →
  a = disk_attempt (files d !! svg_path) (read_only d)
  ∧ d' = set_files d (apply_updates (disk_updates (files d !! svg_path) (read_only d))
                                    (files d)).
Proof.
  intros (d1 & d2 & Hsizes & Hfav & Htouch).
  pose proof source_is_no_output as Hsrc. unfold output_paths in Hsrc.
  apply not_elem_of_app in Hsrc as [Hsrc Hsrc'].
  destruct (disk_sizes_worlds _ _ _ _ Hsizes Hsrc) as [Hos Hd1].
  destruct (disk_favicon_worlds _ _ _ Hfav) as [Hr Hd2].
  unfold touch_worlds in Htouch.
  change (disk_svg2png svg_path apple_icon_path 180 180 d2
          = (answer (touch_outcome a), d')) in Htouch.
  rewrite disk_svg2png_run in Htouch. injection Htouch as Ho%answer_inj Hd'.
  assert (files d1 !! svg_path = files d !! svg_path) as Hsrc1.
  { rewrite Hd1. cbn [files set_files].
    by rewrite lookup_apply_updates, last_update_sizes. }
  assert (read_only d1 = read_only d) as Hro1 by by rewrite Hd1.
  rewrite Hsrc1, Hro1 in Hr, Hd2.
  assert (files d2 !! svg_path = files d !! svg_path) as Hsrc2.
  { rewrite Hd2. cbn [files set_files].
    rewrite lookup_apply_updates, last_update_favicon; [done|set_solver..]. }
  assert (read_only d2 = read_only d) as Hro2 by by rewrite Hd2.
  rewrite Hsrc2, Hro2 in Ho, Hd'.
  split.
  - destruct a as [os r o]. cbn [size_outcomes favicon_outcome touch_outcome] in *.
    unfold disk_attempt. congruence.
  - rewrite <- Hd', Hd2, Hd1. cbn [files set_files]. unfold disk_updates.
    by rewrite !apply_updates_app.
Qed.

Lemma disk_main_block d :
  os_path_exists svg_path d = true →
  let a := disk_attempt (files d !! svg_path) (read_only d) in
  main_block (initial d)
  = (inl (SystemExit (if bool_decide (attempt_count a > 0) then 0 else 1)),
     State (set_files d (apply_updates (disk_updates (files d !! svg_path) (read_only d))
                                       (files d)))
           (attempt_lines a) (attempt_events a) (attempt_count a)).
Proof.
  intros Hfound a.
  destruct (main_block_found (initial d) Hfound)
    as (a' & [d' out j n] & -> & _ & Hout & Hjournal & Hcount & Hworlds).
  cbn [initial world stdout journal success_count] in *.
  apply disk_attempt_worlds in Hworlds as [-> ->]. by subst.
Qed.


End Determined.

(** ** The guarantees at work on a file system *)

Section OnDisk.
Local Open Scope list_scope.
Local Open Scope Z_scope.

(** An empty directory: the run stops at the existence check. *)
Lemma missing_source_aborts_witness :
  os_path_exists svg_path (world (initial empty_disk)) = false
  ∧ exit_status (main_block (initial empty_disk)).1 = 1
  ∧ world (main_block (initial empty_disk)).2 = empty_disk.
Proof.
  split; [reflexivity|].
  destruct (missing_source_aborts (initial empty_disk)) as (Hexit & _ & _ & Hworld);
    [reflexivity|].
  split; [exact Hexit|exact Hworld].
Defined.

(** The loop body on the checkout with the write-protected favicon. *)
Lemma size_failures_are_isolated_witness :
  os_path_exists svg_path (world (initial locked_favicon_disk)) = true
  ∧ ∀ size s0, ∃ s1, generate_size size s0 = (inr tt, s1).
Proof.
  split; [reflexivity|].
  apply (size_failures_are_isolated (initial locked_favicon_disk)). reflexivity.
Defined.

(** The exit status on the fresh checkout. *)
Lemma exit_status_policy_witness :
  os_path_exists svg_path (world (initial fresh_disk)) = true
  ∧ ∃ evs, journal (main_block (initial fresh_disk)).2 = [] ++ evs
           ∧ (exit_status (main_block (initial fresh_disk)).1 = 0
              ↔ some_output_succeeded evs).
Proof.
  split; [reflexivity|].
  destruct (exit_status_policy (initial fresh_disk)) as (evs & Hj & _ & Hiff & _);
    [reflexivity|].
  exists evs. split; [exact Hj|exact Hiff].
Defined.


(** A machine without the packages: the first import raises and the
    installer runs. *)
Lemma failed_import_installs_and_retries_witness :
  (import_statements (initial bare_disk)).1
  = inl (Exc (Error ImportError "No module named 'PIL.Image'"))
  ∧ ∃ imports status w,
      journal (import_statements (initial bare_disk)).2 = [] ++ imports
      ∧ os_system (sys_executable +:+ " -m pip install pillow cairosvg")
                  (world (import_statements (initial bare_disk)).2) = (status, w).
Proof.
  split; [reflexivity|].
  destruct (failed_import_installs_and_retries (initial bare_disk)
              "No module named 'PIL.Image'") as (imports & status & w & Hj & _ & Hsys & _);
    [reflexivity|].
  exists imports, status, w. split; [exact Hj|exact Hsys].
Defined.

(** The touch icon on the fresh checkout. *)
Lemma outputs_have_requested_dimensions_witness :
  os_path_exists svg_path (world (initial fresh_disk)) = true
  ∧ ∃ found s' evs,
      generate_png_icons (initial fresh_disk) = (inr found, s')
      ∧ journal s' = [] ++ evs
      ∧ (touch_succeeded evs →
         file_at (world s') apple_icon_path = Some (Png 180 180)).
Proof.
  split; [reflexivity|].
  destruct (outputs_have_requested_dimensions (initial fresh_disk))
    as (found & s' & evs & Hrun & Hj & _ & _ & Htouch); [reflexivity|].
  exists found, s', evs. split_and!; [exact Hrun|exact Hj|exact Htouch].
Defined.


(** C1: the script at a checkout whose [favicon.ico] is write-protected. The
    rasterization into the temporary raster returns, the ICO save raises,
    control goes to the handler and [os.remove] is never called: the run
    ends with status 0, nine outputs counted, and the temporary raster is
    still on the disk, against the removal on every path that the
    description asks for. *)
Example temporary_raster_left_behind :
  let result := run locked_favicon_disk in
  exit_status result.1 = 0
  ∧ success_count result.2 = 9
  ∧ (favicon_raster_call, Returned) ∈ journal result.2
  ∧ (favicon_save_call, Raised (permission_denied favicon_path)) ∈ journal result.2
  ∧ (∀ o, (favicon_remove_call, o) ∉ journal result.2)
  ∧ files (world result.2) !! favicon_temp = Some (Png 32 32)
  ∧ os_path_exists favicon_temp (world result.2) = true.
Proof.
  intros result. vm_compute in result. subst result.
  cbn [fst snd exit_status success_count journal world].
  split_and!; [reflexivity|reflexivity| | | |by vm_compute|by vm_compute].
  - apply list_elem_of_lookup. by exists 11%nat.
  - apply list_elem_of_lookup. by exists 13%nat.
  - intros o Hin. split_events Hin.
Qed.


End OnDisk.

(** * Further properties of the script *)

(** ** The import block and the exit status of the whole script *)

Section WholeScript.
Context {W : Type} `{Platform W}.
Local Open Scope list_scope.
Local Open Scope Z_scope.
Implicit Types (s : state W) (evs : list event).

(** The two import statements make one or two import calls and either
    return or raise an exception; they print nothing. *)
Lemma import_statements_cases s :
  ∃ r w evs,
    import_statements s = (r, State w (stdout s) (journal s ++ evs) (success_count s))
    ∧ Forall (λ ev : event, ∃ name, ev.1 = Import name) evs
    ∧ (r = inr tt
       ∧ evs = [(Import "PIL.Image", Returned); (Import "cairosvg", Returned)]
       ∨ ∃ e, r = inl (Exc e)).
Proof.
  unfold import_statements, do_import, external, mbind, M_bind.
  destruct (import_module "PIL.Image" (world s)) as [[e1|[]] w1];
    cbn [world stdout journal success_count].
  - exists (inl (Exc e1)), w1, [(Import "PIL.Image", Raised e1)].
    split_and!; [done| |eauto]. repeat constructor. by eexists.
  - destruct (import_module "cairosvg" w1) as [[e2|[]] w2].
    + exists (inl (Exc e2)), w2,
        [(Import "PIL.Image", Returned); (Import "cairosvg", Raised e2)].
      rewrite <- app_assoc. split_and!; [done| |eauto].
      repeat constructor; by eexists.
    + exists (inr tt), w2,
        [(Import "PIL.Image", Returned); (Import "cairosvg", Returned)].
      rewrite <- app_assoc. split_and!; [done| |auto].
      repeat constructor; by eexists.
Qed.

(** The import block makes import and installer calls only, and returns or
    raises an exception. *)
Lemma module_imports_cases s :
  ∃ r s' evs,
    module_imports s = (r, s')
    ∧ journal s' = journal s ++ evs
    ∧ Forall (λ ev : event, setup_call ev.1) evs
    ∧ (r = inr tt ∨ ∃ e, r = inl (Exc e)).
Proof.
  assert (Hsetup : ∀ l, Forall (λ ev : event, ∃ name, ev.1 = Import name) l →
                        Forall (λ ev : event, setup_call ev.1) l).
  { intros l Hl. eapply Forall_impl; [exact Hl|]. intros ev [name Hev]. by rewrite Hev. }
  destruct (import_statements_cases s) as (r & w & evs & Hrun & Hevs & Hr).
  unfold module_imports, try_except_ImportError. rewrite Hrun.
  assert (Hsame : ∃ r' s' evs',
            (r, State w (stdout s) (journal s ++ evs) (success_count s)) = (r', s')
            ∧ journal s' = journal s ++ evs'
            ∧ Forall (λ ev : event, setup_call ev.1) evs'
            ∧ (r' = inr tt ∨ ∃ e, r' = inl (Exc e))).
  { eexists _, _, evs. split_and!; [done|done|by apply Hsetup|].
    destruct Hr as [[-> _]|]; auto. }
  destruct Hr as [[-> _]|[[[] text] ->]]; [done| |done].
  unfold print, do_os_system, mbind at 1 2 3, M_bind.
  cbn [world stdout journal success_count].
  destruct (os_system pip_install w) as [status w1].
  match goal with
  | |- context [import_statements ?st] =>
      destruct (import_statements_cases st) as (r2 & w2 & evs2 & Hrun2 & Hevs2 & Hr2);
      rewrite Hrun2
  end.
  cbn [world stdout journal success_count].
  eexists _, _, (evs ++ [(OsSystem pip_install, Returned)] ++ evs2).
  split_and!; [done|cbn [journal]; by rewrite <- !app_assoc| |].
  - rewrite !Forall_app. split_and!; [by apply Hsetup| |by apply Hsetup].
    by repeat constructor.
  - destruct Hr2 as [[-> _]|]; auto.
Qed.

(** Import and installer calls are no output. *)
Lemma some_output_succeeded_after_setup pre evs :
  Forall (λ ev : event, setup_call ev.1) pre →
  some_output_succeeded (pre ++ evs) ↔ some_output_succeeded evs.
Proof.
  intros Hpre.
  assert (Hskip : ∀ c o, ¬ setup_call c → (c, o) ∈ pre ++ evs ↔ (c, o) ∈ evs).
  { intros c o Hc. rewrite elem_of_app. split; [|by auto].
    intros [Hin|]; [|done]. rewrite Forall_forall in Hpre.
    by apply Hpre in Hin. }
  assert (Hsize : ∀ size, size_succeeded (pre ++ evs) size ↔ size_succeeded evs size).
  { intros size. apply Hskip. by intros []. }
  assert (Hfav : favicon_succeeded (pre ++ evs) ↔ favicon_succeeded evs).
  { unfold favicon_succeeded. rewrite !Hskip by by intros []. done. }
  assert (Htouch : touch_succeeded (pre ++ evs) ↔ touch_succeeded evs).
  { apply Hskip. by intros []. }
  unfold some_output_succeeded. rewrite Hfav, Htouch.
  split; (intros [(size & Hs & Hin)|Hrest]; [left|by right]);
    exists size; (split; [done|]); by apply Hsize.
Qed.

(** The [__main__] block on any state: it ends in [sys.exit], with 0 when
    some output succeeded and 1 when none did. *)
Lemma main_block_any s :
  ∃ code s' evs,
    main_block s = (inl (SystemExit code), s')
    ∧ journal s' = journal s ++ evs
    ∧ (code = 0 ∧ some_output_succeeded evs
       ∨ code = 1 ∧ ¬ some_output_succeeded evs).
Proof.
  destruct (os_path_exists svg_path (world s)) eqn:Hfound.
  - destruct (main_block_found s Hfound)
      as (a & s' & Hrun & Hlen & _ & Hjournal & _ & _).
    pose proof (attempt_count_pos a Hlen) as Hpos.
    eexists _, s', (attempt_events a). split_and!; [done..|].
    case_bool_decide; [left|right]; tauto.
  - rewrite (main_block_missing s Hfound).
    eexists _, _, [(PathExists svg_path, Returned)]. split_and!; [done..|].
    right. split; [done|].
    unfold some_output_succeeded, size_succeeded, favicon_succeeded, touch_succeeded.
    intros [(size & _ & Hin)|[(Hin & _)|Hin]]; split_events Hin.
Qed.

(** X1: whatever the platform does, the script run from the start ends with
    exit status 0 or 1, and with 0 exactly when some output succeeded: a
    failed import, a missing source and ten failed conversions all give 1. *)
Theorem script_exit_status w :
  (exit_status (run w).1 = 0 ∨ exit_status (run w).1 = 1)
  ∧ (exit_status (run w).1 = 0 ↔ some_output_succeeded (journal (run w).2)).
Proof.
  unfold run, script.
  destruct (module_imports_cases (initial w)) as (r & s1 & pre & Himp & Hj1 & Hpre & Hr).
  cbn [initial journal] in Hj1. rewrite app_nil_l in Hj1.
  unfold mbind, M_bind. rewrite Himp.
  assert (Hnone : ¬ some_output_succeeded pre).
  { rewrite <- (app_nil_r pre), some_output_succeeded_after_setup by done.
    unfold some_output_succeeded, size_succeeded, favicon_succeeded, touch_succeeded.
    intros [(size & _ & Hin)|[(Hin & _)|Hin]]; by apply elem_of_nil in Hin. }
  destruct Hr as [->|[e ->]].
  - destruct (main_block_any s1) as (code & s' & evs & -> & Hj & Hcode).
    cbn [fst snd exit_status]. rewrite Hj, Hj1, some_output_succeeded_after_setup by done.
    destruct Hcode as [[-> ?]|[-> ?]]; split; auto; split; try done; lia.
  - cbn [fst snd exit_status]. rewrite Hj1. split; [auto|]. split; [lia|done].
Qed.

(** X3: when the import statements return at once, the import block is
    these two imports and nothing more: nothing is printed, the installer
    is not run, and the script goes on to the [__main__] block. *)
Theorem importable_packages_are_not_installed s :
  (import_statements s).1 = inr tt →
  module_imports s = import_statements s
  ∧ stdout (module_imports s).2 = stdout s
  ∧ journal (module_imports s).2
    = journal s ++ [(Import "PIL.Image", Returned); (Import "cairosvg", Returned)]
  ∧ script s = main_block (import_statements s).2.
Proof.
  intros Hok.
  destruct (import_statements_cases s) as (r & w & evs & Hrun & _ & Hr).
  assert (Hmodule : module_imports s = import_statements s).
  { unfold module_imports, try_except_ImportError.
    destruct (import_statements s) as [[[[[] ?]|]|] ?]; simpl in Hok; done. }
  rewrite Hrun in Hok. cbn [fst] in Hok. subst r.
  destruct Hr as [[_ ->]|[e ?]]; [|done].
  rewrite Hmodule, Hrun. cbn [snd stdout journal]. split_and!; [done..|].
  unfold script, mbind, M_bind. by rewrite Hmodule, Hrun.
Qed.

(** X4: an exception raised by the import statements that is no
    [ImportError] is not caught by the import block: the installer is not
    run, the [__main__] block is not entered, and the script ends with that
    exception and exit status 1. *)
Theorem other_import_failure_is_fatal s e :
  (import_statements s).1 = inl (Exc e) →
  err_class e = OtherError →
  script s = (inl (Exc e), (import_statements s).2)
  ∧ exit_status (script s).1 = 1
  ∧ stdout (script s).2 = stdout s
  ∧ ∃ evs, journal (script s).2 = journal s ++ evs
           ∧ Forall (λ ev : event, ∃ name, ev.1 = Import name) evs.
Proof.
  intros Hfail Hclass.
  destruct (import_statements_cases s) as (r & w & evs & Hrun & Hevs & _).
  assert (Hscript : script s = (inl (Exc e), (import_statements s).2)).
  { unfold script, module_imports, try_except_ImportError, mbind, M_bind.
    destruct (import_statements s) as [r' s']. simpl in Hfail. subst r'.
    destruct e as [[] text]; [done|reflexivity]. }
  rewrite Hscript, Hrun. cbn [fst snd exit_status stdout journal].
  split_and!; [done..|]. by exists evs.
Qed.

End WholeScript.

(** ** The count and the report *)

Section Report.
Context {W : Type} `{Platform W}.
Local Open Scope list_scope.
Local Open Scope Z_scope.
Implicit Types (s : state W) (evs : list event) (os : list outcome).

Lemma credits_le_length os : credits os ≤ Z.of_nat (length os).
Proof. induction os as [|[] os IH]; simpl; lia. Qed.

(** Counting the sizes that meet a property that holds exactly at the
    positions whose outcome is [Returned] gives the credits. *)
Lemma filter_returned (P : Z → Prop) `{!∀ x, Decision (P x)} (l : list Z) os :
  length os = length l →
  (∀ i size, l !! i = Some size → P size ↔ os !! i = Some Returned) →
  Z.of_nat (length (filter P l)) = credits os.
Proof.
  revert os. induction l as [|size l IH]; intros [|o os] Hlen HP; simplify_eq/=; [done|].
  specialize (IH os Hlen (λ i, HP (S i))).
  pose proof (HP 0%nat size eq_refl) as Hhead. simpl in Hhead.
  rewrite filter_cons. destruct (decide (P size)) as [Hyes|Hno].
  - apply Hhead in Hyes as [= ->]. simpl. lia.
  - destruct o; [exfalso; apply Hno, Hhead; done|]. simpl. lia.
Qed.

Lemma sizes_distinct : NoDup sizes.
Proof. apply (bool_decide_unpack _). by vm_compute. Qed.

Lemma succeeded_outputs_attempt a :
  length (size_outcomes a) = length sizes →
  succeeded_outputs (attempt_events a) = attempt_count a.
Proof.
  intros Hlen. unfold succeeded_outputs, attempt_count.
  rewrite (filter_returned _ sizes (size_outcomes a) Hlen).
  2:{ intros i size Hi. rewrite size_succeeded_attempt. split.
      - intros (j & Hj & Ho).
        by rewrite <- (NoDup_lookup _ _ _ _ sizes_distinct Hj Hi).
      - eauto. }
  f_equal; [f_equal|].
  - unfold favicon_credit.
    destruct (decide _) as [Hyes|Hno]; rewrite favicon_succeeded_attempt in *.
    + by rewrite Hyes.
    + by destruct (favicon_outcome a).
  - destruct (decide _) as [Hyes|Hno]; rewrite touch_succeeded_attempt in *.
    + by rewrite Hyes.
    + by destruct (touch_outcome a).
Qed.

(** X2: in a run that found the source the count at the end is the number of
    outputs that succeeded, whatever the count was before; it lies between 0
    and 10, and it is the number the summary line reports. *)
Theorem count_is_number_of_successes s :
  os_path_exists svg_path (world s) = true →
  ∃ evs,
    journal (generate_png_icons s).2 = journal s ++ evs
    ∧ success_count (generate_png_icons s).2 = succeeded_outputs evs
    ∧ 0 ≤ success_count (generate_png_icons s).2 ≤ 10
    ∧ ("📊 Generated " +:+ str_int (success_count (generate_png_icons s).2)
       +:+ " icons successfully") ∈ stdout (generate_png_icons s).2.
Proof.
  intros Hfound.
  destruct (generate_png_icons_spec s Hfound)
    as (a & s' & -> & Hlen & Hout & Hjournal & Hcount & _).
  exists (attempt_events a). cbn [snd]. split_and!.
  - done.
  - by rewrite succeeded_outputs_attempt.
  - rewrite Hcount. unfold attempt_count, favicon_credit.
    pose proof (credits_nonneg (size_outcomes a)).
    destruct (favicon_error _), (touch_outcome a); simpl; lia.
  - rewrite Hcount. unfold attempt_count, favicon_credit.
    pose proof (credits_le_length (size_outcomes a)) as Hle.
    rewrite Hlen in Hle. simpl in Hle.
    destruct (favicon_error _), (touch_outcome a); simpl; lia.
  - rewrite Hout, Hcount. unfold attempt_lines, summary_lines.
    rewrite !elem_of_app. do 5 right. apply list_elem_of_lookup. by exists 5%nat.
Qed.

(** Where a favicon call shows in the journal of a run. *)
Lemma favicon_call_attempt a c o :
  c ∈ [favicon_open_call; favicon_save_call; favicon_remove_call] →
  (c, o) ∈ attempt_events a ↔ (c, o) ∈ favicon_events (favicon_outcome a).
Proof.
  intros Hc. rewrite elem_of_attempt_events. split; [|by auto].
  intros [Heq|[Hin|[Hin|Heq]]]; [| |done|].
  - exfalso. injection Heq as -> _. split_events Hc.
  - exfalso. apply size_events_are_rasters in Hin as (size & _ & ->). split_events Hc.
  - exfalso. injection Heq as -> _. split_events Hc.
Qed.

(** X9: a run that found the source prints, between the header and the
    summary, exactly ten report lines in the order of the outputs: for each
    size the line of how its rasterization ended, for the favicon the success
    line when it succeeded and else the failure line with the text of the
    error that one of its calls raised, and for the touch icon the line of
    how its rasterization ended. *)
Theorem one_report_line_per_output s :
  os_path_exists svg_path (world s) = true →
  ∃ evs reports,
    journal (generate_png_icons s).2 = journal s ++ evs
    ∧ stdout (generate_png_icons s).2
      = stdout s ++ banner_lines ++ source_lines ++ reports
        ++ summary_lines (success_count (generate_png_icons s).2)
    ∧ length reports = 10%nat
    ∧ (∀ i size, sizes !! i = Some size →
         ∃ o, (size_call size, o) ∈ evs ∧ reports !! i = Some (size_line size o))
    ∧ (favicon_succeeded evs ∧ reports !! 8%nat = Some "  ✓ Generated favicon.ico"
       ∨ ∃ c e, c ∈ [favicon_raster_call; favicon_open_call; favicon_save_call;
                     favicon_remove_call]
                ∧ (c, Raised e) ∈ evs
                ∧ reports !! 8%nat
                  = Some ("  ❌ Failed to generate favicon: " +:+ err_text e))
    ∧ ∃ o, (touch_call, o) ∈ evs ∧ reports !! 9%nat = Some (touch_line o).
Proof.
  intros Hfound.
  destruct (generate_png_icons_spec s Hfound)
    as ([os fr to] & s' & -> & Hlen & Hout & Hjournal & Hcount & _).
  cbn [size_outcomes] in Hlen. cbn [snd].
  exists (attempt_events (Attempt os fr to)),
    (zip_with size_line sizes os ++ [favicon_line fr; touch_line to]).
  assert (Hzip : length (zip_with size_line sizes os) = 8%nat).
  { rewrite length_zip_with_l_eq; [done|]. by rewrite Hlen. }
  split_and!.
  - done.
  - rewrite Hout, Hcount. unfold attempt_lines.
    cbn [size_outcomes favicon_outcome touch_outcome]. by rewrite <- !app_assoc.
  - rewrite length_app, Hzip. done.
  - intros i size Hi.
    destruct (lookup_lt_is_Some_2 os i) as [o Ho].
    { rewrite Hlen. by eapply lookup_lt_Some. }
    exists o. split.
    + rewrite elem_of_attempt_events. right. left. apply elem_of_size_events. eauto.
    + rewrite lookup_app_l by (rewrite Hzip; apply lookup_lt_Some in Hi; simpl in Hi; lia).
      by rewrite lookup_zip_with, Hi, Ho.
  - rewrite lookup_app_r, Hzip by (rewrite Hzip; lia). cbn [lookup list_lookup Nat.sub].
    destruct fr as [e|e|e|e|].
    1-4: right; eexists _, e; split_and!; [| |reflexivity];
         [|rewrite elem_of_attempt_events; right; right; left; simpl;
           apply list_elem_of_lookup; first [by exists 0%nat | by exists 1%nat
                                            | by exists 2%nat | by exists 3%nat]];
         set_solver.
    left. split; [by apply favicon_succeeded_attempt|reflexivity].
  - exists to. split.
    + rewrite elem_of_attempt_events. auto.
    + by rewrite lookup_app_r, Hzip by (rewrite Hzip; lia).
Qed.

End Report.

(** ** The files a run touches, and the temporary raster *)

Ltac pick_elem :=
  apply list_elem_of_lookup;
  first [by exists 0%nat | by exists 1%nat | by exists 2%nat | by exists 3%nat].

Section Touched.
Context {W : Type} `{Files W}.
Local Open Scope list_scope.
Local Open Scope Z_scope.
Implicit Types (s : state W) (w : W) (evs : list event).

(** A run changes nothing away from the output paths. *)
Lemma attempt_worlds_elsewhere a w w' p :
  attempt_worlds a w w' → p ∉ output_paths → file_at w' p = file_at w p.
Proof.
  intros (w1 & w2 & Hsizes & Hfav & Htouch) Hp.
  unfold output_paths in Hp. apply not_elem_of_app in Hp as [Hp Hp'].
  pose proof output_paths_distinct as Hnodup. unfold output_paths in Hnodup.
  apply NoDup_app in Hnodup as (Hnodup & _ & _).
  destruct (sizes_worlds_files _ _ _ _ Hsizes Hnodup) as [_ Hloop].
  destruct (favicon_worlds_files _ _ _ Hfav) as (_ & _ & Hframe).
  rewrite (svg2png_elsewhere _ _ _ _ _ _ _ p Htouch), Hframe, Hloop; [done|..];
    set_solver.
Qed.

(** X5: on a platform that keeps the libraries' contract, the [__main__]
    block leaves every path that is not one of the eleven output paths as
    it found it, whether the source exists or not and whatever fails. The
    source document is such a path: it is read, never written. *)
Theorem only_output_paths_are_touched s p :
  p ∉ output_paths →
  file_at (world (main_block s).2) p = file_at (world s) p
  ∧ file_at (world (main_block s).2) svg_path = file_at (world s) svg_path.
Proof.
  assert (Hany : ∀ q, q ∉ output_paths →
                      file_at (world (main_block s).2) q = file_at (world s) q).
  { intros q Hq. destruct (os_path_exists svg_path (world s)) eqn:Hfound.
    - destruct (main_block_found s Hfound) as (a & s' & -> & _ & _ & _ & _ & Hworlds).
      by eapply attempt_worlds_elsewhere.
    - by rewrite (main_block_missing s Hfound). }
  intros Hp. split; [by apply Hany|]. apply Hany, source_is_no_output.
Qed.

(** What the favicon block and the touch icon block leave at the temporary
    raster's path. *)
Lemma temporary_raster_after a w w' :
  attempt_worlds a w w' →
  (favicon_outcome a = FaviconDone → file_at w' favicon_temp = None)
  ∧ (∀ e, favicon_outcome a = OpenFailed e ∨ favicon_outcome a = SaveFailed e →
          file_at w' favicon_temp = Some (Png 32 32)).
Proof.
  intros (w1 & w2 & _ & Hfav & Htouch).
  assert (Hne : favicon_temp ≠ apple_icon_path) by discriminate.
  assert (Hne' : favicon_temp ≠ favicon_path) by discriminate.
  rewrite (svg2png_elsewhere _ _ _ _ _ _ _ favicon_temp Htouch Hne).
  split.
  - intros Hdone. by apply (favicon_worlds_files _ _ _ Hfav).
  - intros e [He|He]; rewrite He in Hfav; simpl in Hfav.
    + destruct Hfav as (w1' & H1 & H2).
      rewrite (open_keeps _ _ _ _ favicon_temp H2). by eapply svg2png_writes.
    + destruct Hfav as (w1' & img & w2' & H1 & H2 & H3).
      rewrite (save_elsewhere _ _ _ _ _ _ _ favicon_temp H3 Hne'),
        (open_keeps _ _ _ _ favicon_temp H2).
      by eapply svg2png_writes.
Qed.

(** X6: on a platform that keeps the libraries' contract, when the favicon
    succeeded (rasterization, save and removal all returned) there is no
    file at the temporary raster's path at the end of the run. *)
Theorem temporary_raster_removed_on_success s :
  os_path_exists svg_path (world s) = true →
  ∃ evs,
    journal (generate_png_icons s).2 = journal s ++ evs
    ∧ (favicon_succeeded evs →
       file_at (world (generate_png_icons s).2) favicon_temp = None).
Proof.
  intros Hfound.
  destruct (generate_png_icons_spec s Hfound)
    as (a & s' & -> & _ & _ & Hjournal & _ & Hworlds).
  exists (attempt_events a). split; [done|].
  intros Hdone%favicon_succeeded_attempt. cbn [snd].
  by apply (temporary_raster_after _ _ _ Hworlds).
Qed.

(** X7: on a platform that keeps the libraries' contract, when the
    rasterization into the temporary raster returned and then the opening or
    the ICO save raised, [os.remove] is not called and the 32x32 temporary
    raster is still there at the end of the run. *)
Theorem temporary_raster_stays_on_failure s :
  os_path_exists svg_path (world s) = true →
  ∃ evs,
    journal (generate_png_icons s).2 = journal s ++ evs
    ∧ ∀ e, (favicon_open_call, Raised e) ∈ evs ∨ (favicon_save_call, Raised e) ∈ evs →
           (favicon_raster_call, Returned) ∈ evs
           ∧ (∀ o, (favicon_remove_call, o) ∉ evs)
           ∧ file_at (world (generate_png_icons s).2) favicon_temp = Some (Png 32 32).
Proof.
  intros Hfound.
  destruct (generate_png_icons_spec s Hfound)
    as (a & s' & -> & _ & _ & Hjournal & _ & Hworlds).
  exists (attempt_events a). split; [done|]. cbn [snd].
  intros e Hraised.
  assert (Hend : favicon_outcome a = OpenFailed e ∨ favicon_outcome a = SaveFailed e).
  { destruct Hraised as [Hin|Hin];
      apply favicon_call_attempt in Hin; [|pick_elem| |pick_elem];
      destruct (favicon_outcome a) as [e'|e'|e'|e'|]; try split_events Hin.
    - left. f_equal. simpl in Hin.
      repeat (apply elem_of_cons in Hin as [Hin|Hin];
              [first [congruence | discriminate Hin]|]).
      by apply elem_of_nil in Hin.
    - right. f_equal. simpl in Hin.
      repeat (apply elem_of_cons in Hin as [Hin|Hin];
              [first [congruence | discriminate Hin]|]).
      by apply elem_of_nil in Hin. }
  split_and!.
  - rewrite elem_of_attempt_events. right. right. left.
    destruct Hend as [-> | ->]; simpl; apply list_elem_of_lookup; by exists 0%nat.
  - intros o Hin. apply favicon_call_attempt in Hin; [|pick_elem].
    destruct Hend as [Hend|Hend]; rewrite Hend in Hin; split_events Hin.
  - by apply (temporary_raster_after _ _ _ Hworlds) with e.
Qed.

End Touched.

(** ** The names of the size files *)

Section Naming.
Local Open Scope Z_scope.

(** The length of a concatenation, read from the parts to the whole. *)
Lemma string_length_app (front back : string) :
  (String.length front + String.length back)%nat = String.length (front +:+ back).
Proof. induction front as [|c front IH]; simpl; [done|]. by rewrite <- IH. Qed.

Lemma string_app_same_length (s1 s2 t1 t2 : string) :
  String.length s1 = String.length s2 → s1 +:+ t1 = s2 +:+ t2 → s1 = s2.
Proof.
  revert s2. induction s1 as [|c s1 IH]; intros [|c' s2] Hlen Heq;
    simplify_eq/=; [done|]. f_equal. by eapply IH.
Qed.

(** X8: the file name is a one-to-one function of the size, for every
    integer and not only for the eight of the list: two sizes have the same
    file exactly when they are the same size, and the file of a size is
    never the source, the temporary raster, the favicon or the touch icon. *)
Theorem icon_path_one_to_one (size1 size2 : Z) :
  (icon_path size1 = icon_path size2 ↔ size1 = size2)
  ∧ icon_path size1 ∉ [svg_path; favicon_temp; favicon_path; apple_icon_path].
Proof.
  split; [split; [|by intros ->]|].
  - unfold icon_path, str_int. intros Heq.
    apply (inj (String.app icons_dir)), (inj (String.app "/icon-")) in Heq.
    assert (Hlen : String.length (pretty size1) = String.length (pretty size2)).
    { apply (f_equal String.length) in Heq.
      rewrite <- !string_length_app in Heq. simpl in Heq. lia. }
    apply (inj pretty). by eapply string_app_same_length.
  - unfold icon_path, svg_path, favicon_temp, favicon_path, apple_icon_path, icons_dir.
    intros Hin. simpl in Hin.
    repeat (apply elem_of_cons in Hin as [Hin|Hin]; [discriminate Hin|]).
    by apply elem_of_nil in Hin.
Qed.

End Naming.

(** ** The function as a whole *)

Section Returns.
Context {W : Type} `{Platform W}.
Local Open Scope list_scope.
Local Open Scope Z_scope.
Implicit Types (s : state W).


End Returns.

(** ** The further properties at work *)

Section FurtherOnDisk.
Local Open Scope list_scope.
Local Open Scope Z_scope.

(** The count on the checkout with the write-protected favicon. *)
Lemma count_is_number_of_successes_witness :
  os_path_exists svg_path (world (initial locked_favicon_disk)) = true
  ∧ ∃ evs,
      journal (generate_png_icons (initial locked_favicon_disk)).2 = [] ++ evs
      ∧ success_count (generate_png_icons (initial locked_favicon_disk)).2
        = succeeded_outputs evs.
Proof.
  split; [reflexivity|].
  destruct (count_is_number_of_successes (initial locked_favicon_disk))
    as (evs & Hj & Hcount & _); [reflexivity|].
  exists evs. split; [exact Hj|exact Hcount].
Defined.

(** The fresh checkout: the packages import at once. *)
Lemma importable_packages_are_not_installed_witness :
  (import_statements (initial fresh_disk)).1 = inr tt
  ∧ module_imports (initial fresh_disk) = import_statements (initial fresh_disk).
Proof.
  split; [reflexivity|].
  apply (importable_packages_are_not_installed (initial fresh_disk)). reflexivity.
Defined.

(** The machine without the cairo library. *)
Lemma other_import_failure_is_fatal_witness :
  fst (@import_statements no_cairo no_cairo_platform (initial NoCairo))
  = inl (Exc cairo_not_found)
  ∧ err_class cairo_not_found = OtherError
  ∧ exit_status (fst (@script no_cairo no_cairo_platform (initial NoCairo))) = 1.
Proof.
  split; [reflexivity|]. split; [reflexivity|].
  apply (@other_import_failure_is_fatal no_cairo no_cairo_platform
           (initial NoCairo) cairo_not_found); reflexivity.
Defined.

(** The source on the fresh checkout. *)
Lemma only_output_paths_are_touched_witness :
  (svg_path ∉ output_paths)
  ∧ file_at (world (main_block (initial fresh_disk)).2) svg_path
    = file_at fresh_disk svg_path.
Proof.
  assert (Hsrc : svg_path ∉ output_paths).
  { apply (bool_decide_unpack _). vm_compute. exact I. }
  split; [exact Hsrc|].
  apply (only_output_paths_are_touched (initial fresh_disk) svg_path Hsrc).
Defined.

(** The temporary raster after a run on the fresh checkout. *)
Lemma temporary_raster_removed_on_success_witness :
  os_path_exists svg_path (world (initial fresh_disk)) = true
  ∧ ∃ evs,
      journal (generate_png_icons (initial fresh_disk)).2 = [] ++ evs
      ∧ (favicon_succeeded evs →
         file_at (world (generate_png_icons (initial fresh_disk)).2) favicon_temp
         = None).
Proof.
  split; [reflexivity|].
  apply (temporary_raster_removed_on_success (initial fresh_disk)). reflexivity.
Defined.

(** The temporary raster on the checkout with the write-protected favicon. *)
Lemma temporary_raster_stays_on_failure_witness :
  os_path_exists svg_path (world (initial locked_favicon_disk)) = true
  ∧ ∃ evs,
      journal (generate_png_icons (initial locked_favicon_disk)).2 = [] ++ evs
      ∧ ∀ e, (favicon_open_call, Raised e) ∈ evs ∨ (favicon_save_call, Raised e) ∈ evs →
             (favicon_raster_call, Returned) ∈ evs
             ∧ (∀ o, (favicon_remove_call, o) ∉ evs)
             ∧ file_at (world (generate_png_icons (initial locked_favicon_disk)).2)
                       favicon_temp = Some (Png 32 32).
Proof.
  split; [reflexivity|].
  apply (temporary_raster_stays_on_failure (initial locked_favicon_disk)). reflexivity.
Defined.

(** The report on the fresh checkout. *)
Lemma one_report_line_per_output_witness :
  os_path_exists svg_path (world (initial fresh_disk)) = true
  ∧ ∃ evs (reports : list string),
      journal (generate_png_icons (initial fresh_disk)).2 = [] ++ evs
      ∧ length reports = 10%nat.
Proof.
  split; [reflexivity|].
  destruct (one_report_line_per_output (initial fresh_disk))
    as (evs & reports & Hj & _ & Hlen & _); [reflexivity|].
  exists evs, reports. split; [exact Hj|exact Hlen].
Defined.

End FurtherOnDisk.
